(** * msft.py: the MSFT stock-price DAG, embedded and checked against its spec

    The four task functions of [src/msft.py] ([extract],
    [return_last_90d_price], [transform], [load]) are embedded as executable
    Rocq functions.  Python values that travel between the tasks are JSON
    values; exceptions are an explicit result type; the collaborators the
    tasks call into (Airflow's Variable store, [requests], the wall clock,
    the Snowflake connection) are explicit parameters. *)

From Stdlib Require Import ZArith List String Ascii Bool Lia DecimalString.
Import ListNotations.
Local Open Scope string_scope.
Local Open Scope list_scope.
Local Open Scope Z_scope.

(** ** Python values and exceptions *)

Module Py.

(** The exception classes the code can meet.  The last four are the error
    taxonomy of the spec; [src/msft.py] defines and raises none of them. *)
Inductive exn : Type :=
| KeyError
| ValueError
| TypeError
| AttributeError
| OverflowError
| JSONDecodeError
| RequestException
| DatabaseError
| ExternalServiceError
| ParseError
| ValidationError
| LoadError (cause : exn).

Inductive result (A : Type) : Type :=
| Ok (a : A)
| Raise (e : exn).
Arguments Ok {A} a.
Arguments Raise {A} e.

Definition bind {A B} (r : result A) (k : A -> result B) : result B :=
  match r with
  | Ok a => k a
  | Raise e => Raise e
  end.

Local Set Warnings "-register-all".

(** What [json.loads] produces: [None], [bool], [int], [str], [list] and
    [dict] (insertion ordered).  Floats are left out: the market-data API
    sends every OHLCV field as a string.  A [str] is a sequence of code
    points below 256. *)
Inductive json : Type :=
| JNull
| JBool (b : bool)
| JInt (z : Z)
| JStr (s : string)
| JArr (l : list json)
| JObj (m : list (string * json)).

Fixpoint dict_get {V : Type} (k : string) (m : list (string * V)) : option V :=
  match m with
  | [] => None
  | (k', v) :: m' => if String.eqb k k' then Some v else dict_get k m'
  end.

Definition keys {V : Type} (m : list (string * V)) : list string := map fst m.

(** [o[k]] for a [str] key [k]. *)
Definition getitem (o : json) (k : string) : result json :=
  match o with
  | JObj m => match dict_get k m with
              | Some v => Ok v
              | None => Raise KeyError
              end
  | _ => Raise TypeError
  end.

(** [o.get(k, default)]: only a [dict] has the method. *)
Definition get_default (o : json) (k : string) (default : json) : result json :=
  match o with
  | JObj m => match dict_get k m with
              | Some v => Ok v
              | None => Ok default
              end
  | _ => Raise AttributeError
  end.

Fixpoint chars (s : string) : list json :=
  match s with
  | EmptyString => []
  | String c s' => JStr (String c EmptyString) :: chars s'
  end.

(** The items a [for] loop over [o] visits. *)
Definition iter (o : json) : result (list json) :=
  match o with
  | JObj m => Ok (map JStr (keys m))
  | JArr l => Ok l
  | JStr s => Ok (chars s)
  | _ => Raise TypeError
  end.

(** A [for] loop whose body threads an accumulator and may raise. *)
Fixpoint for_each {A S : Type} (body : S -> A -> result S) (xs : list A) (acc : S)
  : result S :=
  match xs with
  | [] => Ok acc
  | x :: xs' => bind (body acc x) (for_each body xs')
  end.

(** [str(v)] and [repr(v)], as an f-string placeholder renders a value. *)
Definition nl : string := String "010"%char EmptyString.
Definition dquote : ascii := "034"%char.
Definition squote : ascii := "039"%char.
Definition backslash : ascii := "092"%char.

Fixpoint contains (c : ascii) (s : string) : bool :=
  match s with
  | EmptyString => false
  | String c' s' => Ascii.eqb c c' || contains c s'
  end.

Definition hex_digit (n : nat) : ascii :=
  nth n (list_ascii_of_string "0123456789abcdef") "0"%char.

Definition repr_char (q c : ascii) : string :=
  let n := nat_of_ascii c in
  if Ascii.eqb c q || Ascii.eqb c backslash then String backslash (String c EmptyString)
  else if Nat.eqb n 9 then String backslash "t"
  else if Nat.eqb n 10 then String backslash "n"
  else if Nat.eqb n 13 then String backslash "r"
  else if Nat.ltb n 32 || (Nat.leb 127 n && Nat.leb n 160) || Nat.eqb n 173
       then String backslash
              (String "x" (String (hex_digit (Nat.div n 16))
                                  (String (hex_digit (Nat.modulo n 16)) EmptyString)))
  else String c EmptyString.

Fixpoint repr_chars (q : ascii) (s : string) : string :=
  match s with
  | EmptyString => EmptyString
  | String c s' => (repr_char q c ++ repr_chars q s')%string
  end.

Definition repr_str (s : string) : string :=
  let q := if contains squote s && negb (contains dquote s) then dquote else squote in
  String q (repr_chars q s ++ String q EmptyString)%string.

Definition str_int (z : Z) : string := NilZero.string_of_int (Z.to_int z).

Fixpoint join (sep : string) (l : list string) : string :=
  match l with
  | [] => EmptyString
  | [x] => x
  | x :: l' => (x ++ sep ++ join sep l')%string
  end.

Fixpoint repr (v : json) : string :=
  match v with
  | JNull => "None"
  | JBool true => "True"
  | JBool false => "False"
  | JInt z => str_int z
  | JStr s => repr_str s
  | JArr l => ("[" ++ join ", " (map repr l) ++ "]")%string
  | JObj m =>
      ("{" ++ join ", "
                (map (fun kv => (repr_str (fst kv) ++ ": " ++ repr (snd kv))%string) m)
           ++ "}")%string
  end.

Definition str (v : json) : string :=
  match v with
  | JStr s => s
  | _ => repr v
  end.

End Py.
Export Py.

Declare Scope py_scope.
Delimit Scope py_scope with py.
Notation "x <- c ;; k" := (Py.bind c (fun x => k))
  (at level 61, c at next level, right associativity) : py_scope.

(** ** [datetime]: parsing [%Y-%m-%d], ordinals, comparison *)

Module Datetime.

(** A naive [datetime] is its proleptic Gregorian ordinal (as [toordinal()]
    gives it: 1 is 0001-01-01) and the microseconds elapsed since midnight.
    Naive datetimes compare lexicographically on these two. *)
Record datetime : Type := mk_datetime {
  toordinal : Z;
  time_of_day : Z
}.

Definition MAXORDINAL : Z := 3652059.

Definition is_leap (y : Z) : bool :=
  (y mod 4 =? 0) && (negb (y mod 100 =? 0) || (y mod 400 =? 0)).

Definition DAYS_IN_MONTH : list Z := [31; 28; 31; 30; 31; 30; 31; 31; 30; 31; 30; 31].
Definition DAYS_BEFORE_MONTH : list Z :=
  [0; 31; 59; 90; 120; 151; 181; 212; 243; 273; 304; 334].

Definition days_in_month (y m : Z) : Z :=
  if (m =? 2) && is_leap y then 29 else nth (Z.to_nat (m - 1)) DAYS_IN_MONTH 0.

Definition days_before_year (y : Z) : Z :=
  let y' := y - 1 in y' * 365 + y' / 4 - y' / 100 + y' / 400.

Definition days_before_month (y m : Z) : Z :=
  nth (Z.to_nat (m - 1)) DAYS_BEFORE_MONTH 0
  + (if (2 <? m) && is_leap y then 1 else 0).

Definition ymd2ord (y m d : Z) : Z :=
  days_before_year y + days_before_month y m + d.

(** The regular expression [strptime] compiles for ["%Y-%m-%d"]:
    [(\d\d\d\d)-(1[0-2]|0[1-9]|[1-9])-(3[0-1]|[1-2]\d|0[1-9]|[1-9]| [1-9])].
    A group returns its alternatives that match a prefix, in the order the
    regular expression tries them, each with the text left over. *)
Definition digit (c : ascii) : option Z :=
  let n := Z.of_nat (nat_of_ascii c) in
  if (48 <=? n) && (n <=? 57) then Some (n - 48) else None.

Definition digit_in (lo hi : Z) (c : ascii) : option Z :=
  match digit c with
  | Some n => if (lo <=? n) && (n <=? hi) then Some n else None
  | None => None
  end.

Definition re_lit (c : ascii) (s : string) : option string :=
  match s with
  | String c' s' => if Ascii.eqb c c' then Some s' else None
  | EmptyString => None
  end.

Definition re_year (s : string) : option (Z * string) :=
  match s with
  | String a (String b (String c (String d s'))) =>
      match digit a, digit b, digit c, digit d with
      | Some a, Some b, Some c, Some d => Some (a * 1000 + b * 100 + c * 10 + d, s')
      | _, _, _, _ => None
      end
  | _ => None
  end.

(** One alternative of two characters, the first in [[a1,a2]] and the second
    in [[b1,b2]]; [tens] is the value of the first character's digit. *)
Definition alt2 (a1 a2 b1 b2 : Z) (s : string) : list (Z * string) :=
  match s with
  | String a (String b s') =>
      match digit_in a1 a2 a, digit_in b1 b2 b with
      | Some x, Some y => [(x * 10 + y, s')]
      | _, _ => []
      end
  | _ => []
  end.

Definition alt1 (a1 a2 : Z) (s : string) : list (Z * string) :=
  match s with
  | String a s' =>
      match digit_in a1 a2 a with
      | Some x => [(x, s')]
      | None => []
      end
  | _ => []
  end.

Definition alt_space (s : string) : list (Z * string) :=
  match s with
  | String " " s' => alt1 1 9 s'
  | _ => []
  end.

Definition re_month (s : string) : list (Z * string) :=
  alt2 1 1 0 2 s ++ alt2 0 0 1 9 s ++ alt1 1 9 s.

Definition re_day (s : string) : list (Z * string) :=
  alt2 3 3 0 1 s ++ alt2 1 2 0 9 s ++ alt2 0 0 1 9 s ++ alt1 1 9 s ++ alt_space s.

Fixpoint first_some {A B : Type} (f : A -> option B) (l : list A) : option B :=
  match l with
  | [] => None
  | a :: l' => match f a with
               | Some b => Some b
               | None => first_some f l'
               end
  end.

(** The match of the whole pattern at the start of [s]: year, month, day
    and the text after the match. *)
Definition re_match (s : string) : option (Z * Z * Z * string) :=
  match re_year s with
  | None => None
  | Some (y, s1) =>
      match re_lit "-" s1 with
      | None => None
      | Some s2 =>
          first_some
            (fun ms => match re_lit "-" (snd ms) with
                       | None => None
                       | Some s4 =>
                           match re_day s4 with
                           | [] => None
                           | (d, s5) :: _ => Some (y, fst ms, d, s5)
                           end
                       end)
            (re_month s2)
      end
  end.

(** [datetime.strptime(s, "%Y-%m-%d")] for a [str] [s]: no match, text left
    after the match, year 0 and a day the month does not have are all
    [ValueError]; the result is midnight of the date. *)
Definition strptime (s : string) : result datetime :=
  match re_match s with
  | None => Raise ValueError
  | Some (y, m, d, rest) =>
      match rest with
      | EmptyString =>
          if (1 <=? y) && (d <=? days_in_month y m)
          then Ok (mk_datetime (ymd2ord y m d) 0)
          else Raise ValueError
      | String _ _ => Raise ValueError
      end
  end.

(** [t - timedelta(days=n)]. *)
Definition sub_days (t : datetime) (n : Z) : result datetime :=
  let o := toordinal t - n in
  if (0 <? o) && (o <=? MAXORDINAL)
  then Ok (mk_datetime o (time_of_day t))
  else Raise OverflowError.

(** [a >= b]. *)
Definition ge (a b : datetime) : bool :=
  (toordinal b <? toordinal a)
  || ((toordinal a =? toordinal b) && (time_of_day b <=? time_of_day a)).

End Datetime.
Import Datetime.

(** ** The collaborators of the fetching tasks *)

(** What [requests.get] hands back: the status line and what
    [response.json()] makes of the body ([None] when the body is not JSON). *)
Record response : Type := mk_response {
  status_code : Z;
  body_json : option json
}.

(** The world the fetching tasks read: Airflow's Variable store,
    [requests.get] by URL, the local wall clock ([datetime.today()]) and
    [url_template.format(symbol=..., vantage_api_key=...)]. *)
Record runtime : Type := mk_runtime {
  variables : list (string * string);
  requests_get : string -> result response;
  today : datetime;
  str_format : string -> string -> string -> result string
}.

(** [Variable.get(key)], no default given. *)
Definition Variable_get (rt : runtime) (key : string) : result string :=
  match dict_get key (variables rt) with
  | Some v => Ok v
  | None => Raise KeyError
  end.

(** [response.json()]. *)
Definition response_json (r : response) : result json :=
  match body_json r with
  | Some v => Ok v
  | None => Raise JSONDecodeError
  end.

Local Open Scope py_scope.

(** ** Task 1: [extract] (lines 30-46) *)

Definition extract (rt : runtime) : result json :=
  api_key <- Variable_get rt "alpha_vantage_api_key" ;;
  url_template <- Variable_get rt "url" ;;
  let symbol := "MSFT" in
  url <- str_format rt url_template symbol api_key ;;
  response <- requests_get rt url ;;
  data <- response_json response ;;
  Ok data.

(** ** Task 2: [return_last_90d_price] (lines 49-77) *)

Definition SERIES : string := "Time Series (Daily)".

Definition query_url (symbol vantage_api_key : string) : string :=
  ("https://www.alphavantage.co/query?function=TIME_SERIES_DAILY&symbol="
     ++ symbol ++ "&apikey=" ++ vantage_api_key)%string.

(** [data["Time Series (Daily)"][d][field]]. *)
Definition bar_field (data : json) (d field : string) : result json :=
  series <- getitem data SERIES ;;
  bar <- getitem series d ;;
  getitem bar field.

Definition price_data (d : string) (open high low close volume : json)
    (symbol : string) : json :=
  JObj [("date", JStr d); ("open", open); ("high", high); ("low", low);
        ("close", close); ("volume", volume); ("symbol", JStr symbol)].

(** The body of the loop of lines 62-75 for one item [d]. *)
Definition window_step (data : json) (ninety_days_ago : datetime) (symbol : string)
    (results : list json) (d : json) : result (list json) :=
  match d with
  | JStr d =>
      date_obj <- strptime d ;;
      if ge date_obj ninety_days_ago then
        open <- bar_field data d "1. open" ;;
        high <- bar_field data d "2. high" ;;
        low <- bar_field data d "3. low" ;;
        close <- bar_field data d "4. close" ;;
        volume <- bar_field data d "5. volume" ;;
        Ok (results ++ [price_data d open high low close volume symbol])
      else Ok results
  | _ => Raise TypeError
  end.

(** Lines 58-77, on the decoded response. *)
Definition filter_last_90d (data : json) (now : datetime) (symbol : string)
  : result (list json) :=
  let results := [] in
  ninety_days_ago <- sub_days now 90 ;;
  series <- get_default data SERIES (JObj []) ;;
  items <- iter series ;;
  for_each (window_step data ninety_days_ago symbol) items results.

(** Lines 51-56: the task fetches the series itself. *)
Definition fetch_daily (rt : runtime) (symbol : string) : result json :=
  vantage_api_key <- Variable_get rt "alpha_vantage_api_key" ;;
  let url := query_url symbol vantage_api_key in
  r <- requests_get rt url ;;
  response_json r.

Definition return_last_90d_price (rt : runtime) (symbol : string)
  : result (list json) :=
  data <- fetch_daily rt symbol ;;
  filter_last_90d data (today rt) symbol.

(** ** The warehouse connection and standard output *)

(** The driver calls a task issues, in order. *)
Inductive call : Type :=
| GetConn
| Cursor
| Execute (sql : string)
| Commit
| Rollback
| CursorClose
| ConnClose.

(** One constructor per [print] statement, carrying the values its f-string
    interpolates, in the order the message shows them. *)
Inductive event : Type :=
| PrintProcessed (processed_data : list json)
| PrintNoRecords
| PrintInserting (date open_price symbol high_price low_price close_price volume : json)
| PrintLoaded (n : nat) (target_table : string)
| PrintError (e : exn).

Section Warehouse.

(** The warehouse is a parameter: the table contents [store] and what each
    driver call does.  [sql_exec] is the engine on one statement text: the
    new contents, or the storage error it raises.  [autocommits sql] says
    whether the session commits on its own once [sql] has executed: every
    statement under autocommit, the table creation on an engine whose DDL
    commits implicitly, no statement in a session that holds its work
    until [commit].  The source opens no transaction and sets no autocommit
    mode, so the mode is left open.  The other calls, [hook.get_conn()],
    [conn.cursor()], [conn.commit()], [conn.rollback()], [cur.close()] and
    [conn.close()], are each made at most once in a run of [load]: the
    outcome of each is a constant of the run, and each may raise. *)
Variable store : Type.

Record warehouse : Type := mk_warehouse {
  connect : result unit;
  cursor : result unit;
  sql_exec : string -> store -> result store;
  autocommits : string -> bool;
  commit : result unit;
  rollback : result unit;
  close_cursor : result unit;
  close_conn : result unit
}.

Variable wh : warehouse.

(** Modelled from the spec: what a commit and a rollback that succeed do,
    which lives in the Snowflake driver and server and not in this
    repository.  Following section 4.4 ("commit on full success; roll back
    the entire batch"), the session works on its [working] contents; a
    commit publishes them as the [committed] contents other sessions see,
    a rollback replaces them by the [committed] ones.  A call that raises
    leaves both as they are. *)
Record world : Type := mk_world {
  stdout : list event;
  committed : store;
  working : store;
  calls : list call
}.

(** A task body: it may print, drive the connection, and raise; what it
    did before raising stays done. *)
Definition M (A : Type) : Type := world -> result A * world.

Definition ret {A} (a : A) : M A := fun w => (Ok a, w).

Definition bindM {A B} (c : M A) (k : A -> M B) : M B :=
  fun w => match c w with
           | (Ok a, w') => k a w'
           | (Raise e, w') => (Raise e, w')
           end.

Definition lift {A} (r : result A) : M A := fun w => (r, w).

Definition print (ev : event) : M unit :=
  fun w => (Ok tt, mk_world (stdout w ++ [ev]) (committed w) (working w) (calls w)).

Definition log_call (c : call) (w : world) : world :=
  mk_world (stdout w) (committed w) (working w) (calls w ++ [c]).

Definition hook_get_conn : M unit :=
  fun w => let w := log_call GetConn w in
           match connect wh with
           | Ok _ => (Ok tt, mk_world (stdout w) (committed w) (committed w) (calls w))
           | Raise e => (Raise e, w)
           end.

Definition conn_cursor : M unit :=
  fun w => let w := log_call Cursor w in
           match cursor wh with
           | Ok _ => (Ok tt, w)
           | Raise e => (Raise e, w)
           end.

Definition cur_execute (sql : string) : M unit :=
  fun w => let w := log_call (Execute sql) w in
           match sql_exec wh sql (working w) with
           | Ok st =>
               (Ok tt, mk_world (stdout w)
                                (if autocommits wh sql then st else committed w)
                                st (calls w))
           | Raise e => (Raise e, w)
           end.

Definition conn_commit : M unit :=
  fun w => let w := log_call Commit w in
           match commit wh with
           | Ok _ => (Ok tt, mk_world (stdout w) (working w) (working w) (calls w))
           | Raise e => (Raise e, w)
           end.

Definition conn_rollback : M unit :=
  fun w => let w := log_call Rollback w in
           match rollback wh with
           | Ok _ => (Ok tt, mk_world (stdout w) (committed w) (committed w) (calls w))
           | Raise e => (Raise e, w)
           end.

Definition cur_close : M unit :=
  fun w => let w := log_call CursorClose w in
           match close_cursor wh with
           | Ok _ => (Ok tt, w)
           | Raise e => (Raise e, w)
           end.

Definition conn_close : M unit :=
  fun w => let w := log_call ConnClose w in
           match close_conn wh with
           | Ok _ => (Ok tt, w)
           | Raise e => (Raise e, w)
           end.

(** [try: body / except Exception as e: handler e]. *)
Definition try_except {A} (body : M A) (handler : exn -> M A) : M A :=
  fun w => match body w with
           | (Ok a, w') => (Ok a, w')
           | (Raise e, w') => handler e w'
           end.

(** [try: body / finally: final]. *)
Definition try_finally {A} (body : M A) (final : M unit) : M A :=
  fun w => match body w with
           | (r, w') => match final w' with
                        | (Ok _, w'') => (r, w'')
                        | (Raise e, w'') => (Raise e, w'')
                        end
           end.

Fixpoint for_M {A} (body : A -> M unit) (xs : list A) : M unit :=
  match xs with
  | [] => ret tt
  | x :: xs' => bindM (body x) (fun _ => for_M body xs')
  end.

Declare Scope io_scope.
Local Notation "x <- c ;; k" := (bindM c (fun x => k))
  (at level 61, c at next level, right associativity) : io_scope.
Local Notation "c ;; k" := (bindM c (fun _ => k))
  (at level 61, right associativity) : io_scope.
Local Open Scope io_scope.

(** ** Task 3: [transform] (lines 80-89) *)

(** The DAG hands the task the list [return_last_90d_price] returned.  The
    loop appends every entry to [processed_data]; line 88 prints the list
    as JSON, which cannot fail on JSON values. *)
Definition transform (stock_data : list json) : M (list json) :=
  let processed_data :=
    fold_left (fun processed_data entry => processed_data ++ [entry]) stock_data [] in
  print (PrintProcessed processed_data) ;;
  ret processed_data.

(** ** Task 4: [load] (lines 92-148) *)

Definition create_sql (target_table : string) : string :=
  (nl ++ "        CREATE OR REPLACE TABLE " ++ target_table ++ " (" ++ nl
      ++ "          date DATE PRIMARY KEY," ++ nl
      ++ "          symbol VARCHAR," ++ nl
      ++ "          open NUMBER," ++ nl
      ++ "          high NUMBER," ++ nl
      ++ "          low NUMBER," ++ nl
      ++ "          close NUMBER," ++ nl
      ++ "          volume NUMBER" ++ nl
      ++ "        )" ++ nl
      ++ "        ")%string.

Definition insert_sql (target_table : string)
    (date symbol open_price high_price low_price close_price volume : json) : string :=
  (nl ++ "            INSERT INTO " ++ target_table
      ++ " (date, symbol, open, high, low, close, volume)" ++ nl
      ++ "            VALUES (TO_DATE('" ++ str date ++ "', 'YYYY-MM-DD'), '"
      ++ str symbol ++ "', " ++ str open_price ++ ", " ++ str high_price ++ ", "
      ++ str low_price ++ ", " ++ str close_price ++ ", " ++ str volume ++ ")" ++ nl
      ++ "            ")%string.

(** The body of the loop of lines 122-138 for one record [r]. *)
Definition insert_record (target_table : string) (r : json) : M unit :=
  date <- lift (getitem r "date") ;;
  symbol <- lift (getitem r "symbol") ;;
  open_price <- lift (getitem r "open") ;;
  high_price <- lift (getitem r "high") ;;
  low_price <- lift (getitem r "low") ;;
  close_price <- lift (getitem r "close") ;;
  volume <- lift (getitem r "volume") ;;
  print (PrintInserting date open_price symbol high_price low_price close_price volume) ;;
  let sql := insert_sql target_table date symbol open_price high_price low_price
                        close_price volume in
  cur_execute sql.

(** Lines 107-141: the body of the [try]. *)
Definition load_batch (target_table : string) (records : list json) : M unit :=
  cur_execute (create_sql target_table) ;;
  for_M (insert_record target_table) records ;;
  conn_commit ;;
  print (PrintLoaded (List.length records) target_table).

(** [load] returns [None] on every path that returns. *)
Definition load (records : list json) : M json :=
  match records with
  | [] =>
      print PrintNoRecords ;;
      ret JNull
  | _ :: _ =>
      hook_get_conn ;;
      conn_cursor ;;
      let target_table := "stock.msft.stock_price" in
      try_finally
        (try_except
           (load_batch target_table records)
           (fun e => conn_rollback ;; print (PrintError e)))
        (cur_close ;; conn_close) ;;
      ret JNull
  end.

End Warehouse.

Arguments mk_warehouse {store} _ _ _ _ _ _ _ _.
Arguments connect {store} _.
Arguments cursor {store} _.
Arguments sql_exec {store} _ _ _.
Arguments autocommits {store} _ _.
Arguments commit {store} _.
Arguments rollback {store} _.
Arguments close_cursor {store} _.
Arguments close_conn {store} _.
Arguments mk_world {store} _ _ _ _.
Arguments stdout {store} _.
Arguments committed {store} _.
Arguments working {store} _.
Arguments calls {store} _.
Arguments M : clear implicits.
Arguments ret {store A} _ _.
Arguments bindM {store A B} _ _ _.
Arguments lift {store A} _ _.
Arguments print {store} _ _.
Arguments try_except {store A} _ _ _.
Arguments try_finally {store A} _ _ _.
Arguments for_M {store A} _ _ _.
Arguments log_call {store} _ _.
Arguments hook_get_conn {store} _ _.
Arguments conn_cursor {store} _ _.
Arguments cur_execute {store} _ _ _.
Arguments conn_commit {store} _ _.
Arguments conn_rollback {store} _ _.
Arguments cur_close {store} _ _.
Arguments conn_close {store} _ _.
Arguments transform {store} _ _.
Arguments insert_record {store} _ _ _ _.
Arguments load_batch {store} _ _ _ _.
Arguments load {store} _ _ _.

(** ** The DAG (lines 151-155) *)

Inductive task_state : Type := success | failed | upstream_failed.

Definition state_of {A} (r : result A) : task_state :=
  match r with
  | Ok _ => success
  | Raise _ => failed
  end.

Record dag_run : Type := mk_dag_run {
  extract_state : task_state;
  filter_state : task_state;
  transform_state : task_state;
  load_state : task_state
}.

(** Modelled from the spec: the scheduler adapter of section 6, which is
    Airflow and not code of this repository.  A task runs once the tasks
    whose output it takes have succeeded.  Lines 152-155 pass the output of
    [return_last_90d_price] to [transform] and that of [transform] to
    [load]; the output of [extract] is bound to [stock_data] and passed to
    nothing.  Retries are left out. *)
Definition run_dag {store} (rt : runtime) (wh : warehouse store) (w : world store)
  : dag_run * world store :=
  let stock_data := extract rt in
  match return_last_90d_price rt "MSFT" with
  | Raise _ =>
      (mk_dag_run (state_of stock_data) failed upstream_failed upstream_failed, w)
  | Ok last_90_days_data =>
      match transform last_90_days_data w with
      | (Raise _, w1) =>
          (mk_dag_run (state_of stock_data) success failed upstream_failed, w1)
      | (Ok transformed_data, w1) =>
          match load wh transformed_data w1 with
          | (r, w2) => (mk_dag_run (state_of stock_data) success success (state_of r), w2)
          end
      end
  end.

(** * Vocabulary of the properties *)

(** ** The window of [return_last_90d_price] *)

(** [rec] is the record the task builds for the bar of date key [d]: the
    five fields of the bar, the date key and the symbol. *)
Definition bar_record (data : json) (symbol d : string) (rec : json) : Prop :=
  exists o h l c v,
    bar_field data d "1. open" = Ok o /\ bar_field data d "2. high" = Ok h
    /\ bar_field data d "3. low" = Ok l /\ bar_field data d "4. close" = Ok c
    /\ bar_field data d "5. volume" = Ok v
    /\ rec = price_data d o h l c v symbol.

(** The bar of [d] is an object that holds all five fields. *)
Definition complete (data : json) (symbol d : string) : Prop :=
  exists rec, bar_record data symbol d rec.

(** The window as the spec words it: the calendar days from [R - 90] to
    [R], both included. *)
Definition in_window (R : Z) (t : datetime) : Prop :=
  R - 90 <= toordinal t <= R.

Definition all_in_window (R : Z) (data : json) (symbol : string)
    (S : list (string * json)) (out : list json) : Prop :=
  forall rec, In rec out ->
    exists d t, In d (keys S) /\ bar_record data symbol d rec
                /\ strptime d = Ok t /\ in_window R t.

Definition none_omitted (R : Z) (data : json) (symbol : string)
    (S : list (string * json)) (out : list json) : Prop :=
  forall d t, In d (keys S) -> strptime d = Ok t -> in_window R t ->
    exists rec, In rec out /\ bar_record data symbol d rec.

(** The test of line 64 on a date key, and the record of lines 66-74 with
    [None] standing for a field the bar lacks. *)
Definition qualifies (ninety_days_ago : datetime) (d : string) : bool :=
  match strptime d with
  | Ok date_obj => ge date_obj ninety_days_ago
  | Raise _ => false
  end.

Definition value (r : result json) : json :=
  match r with
  | Ok v => v
  | Raise _ => JNull
  end.

Definition record_of (data : json) (symbol d : string) : json :=
  price_data d (value (bar_field data d "1. open")) (value (bar_field data d "2. high"))
             (value (bar_field data d "3. low")) (value (bar_field data d "4. close"))
             (value (bar_field data d "5. volume")) symbol.

(** ** What section 4.3 and 4.4 ask of [transform] and [load] *)

(** A normalised field holds a number. *)
Definition numeric (v : json) : bool :=
  match v with
  | JInt _ => true
  | _ => false
  end.

(** The load report, read off a returned value: an object whose
    [rowsLoaded] is [n]. *)
Definition reports_rows (v : json) (n : Z) : Prop :=
  getitem v "rowsLoaded" = Ok (JInt n).

(** ** Failures inside the [try] block of [load] *)

Definition TARGET : string := "stock.msft.stock_price".

(** The world once [hook.get_conn()] and [conn.cursor()] have returned. *)
Definition connected {store} (w : world store) : world store :=
  mk_world (stdout w) (committed w) (committed w) ((calls w ++ [GetConn]) ++ [Cursor]).

(** Table creation raises [e]. *)
Definition creation_fails {store} (wh : warehouse store) (w : world store) (e : exn)
  : Prop :=
  fst (cur_execute wh (create_sql TARGET) (connected w)) = Raise e.

(** Table creation and the inserts of the first [k] records are staged,
    and the insert of the next record raises [e]. *)
Definition insert_fails {store} (wh : warehouse store) (records : list json)
    (w : world store) (k : nat) (e : exn) : Prop :=
  exists r wk,
    nth_error records k = Some r
    /\ bindM (cur_execute wh (create_sql TARGET))
             (fun _ => for_M (insert_record wh TARGET) (firstn k records)) (connected w)
       = (Ok tt, wk)
    /\ fst (insert_record wh TARGET r wk) = Raise e.

(** A step that never publishes: whatever it returns, the committed
    contents are those it started from. *)
Definition keeps_committed {store A} (c : M store A) : Prop :=
  forall w, committed (snd (c w)) = committed w.

(** A session that holds every statement back until [commit]: it runs
    without autocommit and its engine does not commit on table creation. *)
Definition staged_session {store} (wh : warehouse store) : Prop :=
  forall sql, autocommits wh sql = false.

(** The [except] block of lines 143-145 after a [try] block that ended in
    [r] and world [w]: nothing after a normal end; after an error the
    rollback, then the print unless the rollback itself raised. *)
Definition handler_outcome {store} (wh : warehouse store) (r : result unit)
    (w : world store) : result unit * world store :=
  match r with
  | Ok u => (Ok u, w)
  | Raise e =>
      match rollback wh with
      | Ok _ => (Ok tt, mk_world (stdout w ++ [PrintError e]) (committed w) (committed w)
                                 (calls w ++ [Rollback]))
      | Raise e' => (Raise e', log_call Rollback w)
      end
  end.

(** The [finally] block of lines 146-148 after what precedes it ended in
    [r] and world [w], and what [load] then returns or raises:
    [conn.close()] is reached only when [cur.close()] returned, and an
    error of either replaces [r]. *)
Definition closes_outcome {store} (wh : warehouse store) (r : result unit)
    (w : world store) : result json * world store :=
  match close_cursor wh with
  | Raise e => (Raise e, log_call CursorClose w)
  | Ok _ =>
      match close_conn wh with
      | Raise e => (Raise e, log_call ConnClose (log_call CursorClose w))
      | Ok _ => (match r with
                 | Ok _ => Ok JNull
                 | Raise e => Raise e
                 end, log_call ConnClose (log_call CursorClose w))
      end
  end.

(** The closing calls as they show in the trace. *)
Definition closing_calls {store} (wh : warehouse store) : list call :=
  CursorClose :: match close_cursor wh with
                 | Ok _ => [ConnClose]
                 | Raise _ => []
                 end.

(** ** Sample inputs *)

Definition bar (o h l c v : string) : json :=
  JObj [("1. open", JStr o); ("2. high", JStr h); ("3. low", JStr l);
        ("4. close", JStr c); ("5. volume", JStr v)].

Definition daily (series : list (string * json)) : json :=
  JObj [("Meta Data", JObj [("2. Symbol", JStr "MSFT")]); (SERIES, JObj series)].

Definition ok_200 (series : list (string * json)) : response :=
  mk_response 200 (Some (daily series)).

(** A runtime that answers every request with [r] at wall-clock time [now]. *)
Definition serving (r : response) (now : datetime) : runtime :=
  mk_runtime [("alpha_vantage_api_key", "demo"); ("url", "{symbol}/{vantage_api_key}")]
             (fun _ => Ok r) now (fun template _ _ => Ok template).

(** 2024-02-01, at midnight and at one in the morning. *)
Definition feb1_midnight : datetime := mk_datetime 738917 0.
Definition feb1_1am : datetime := mk_datetime 738917 3600000000.

Definition series_ok : list (string * json) :=
  [("2024-01-10", bar "10" "12" "9" "11" "1000");
   ("2023-10-02", bar "1" "2" "1" "2" "500");
   ("2024-1-5", bar "3" "4" "3" "4" "700")].

Definition series_edges : list (string * json) :=
  [("2024-03-01", bar "20" "22" "19" "21" "3000");
   ("2023-11-03", bar "5" "6" "4" "5" "900")].

Definition series_bad_key : list (string * json) :=
  [("2024-01-10", bar "10" "12" "9" "11" "1000");
   ("2024-02-30", bar "1" "2" "1" "2" "500");
   ("2024-01-12", bar "3" "4" "3" "4" "700")].

(** A runtime whose API answers HTTP 500 to the URL [extract] builds, with
    a JSON error body, and serves [series_ok] to the filter stage. *)
Definition error_body : json := JObj [("Error Message", JStr "Internal Server Error")].

Definition extract_gets_500 : runtime :=
  mk_runtime [("alpha_vantage_api_key", "demo"); ("url", "https://example.test/q")]
             (fun url => if String.eqb url "https://example.test/q"
                         then Ok (mk_response 500 (Some error_body))
                         else Ok (ok_200 series_ok))
             feb1_1am
             (fun template _ _ => Ok template).

(** A warehouse whose table contents are the statements applied so far and
    which rejects every statement that mentions [bad]. *)
Fixpoint mentions (bad s : string) : bool :=
  match s with
  | EmptyString => String.eqb bad EmptyString
  | String _ s' => String.prefix bad s || mentions bad s'
  end.

Definition journal_engine (bad sql : string) (st : list string) : result (list string) :=
  if mentions bad sql then Raise DatabaseError else Ok (st ++ [sql]).

(** Every driver call succeeds and the session holds its statements until
    [commit]. *)
Definition journal (bad : string) : warehouse (list string) :=
  mk_warehouse (Ok tt) (Ok tt) (journal_engine bad) (fun _ => false)
               (Ok tt) (Ok tt) (Ok tt) (Ok tt).



(** Warehouses one of whose driver calls raises. *)
Definition no_cursor : warehouse (list string) :=
  mk_warehouse (Ok tt) (Raise DatabaseError) (journal_engine "never") (fun _ => false)
               (Ok tt) (Ok tt) (Ok tt) (Ok tt).

Definition failing_rollback (bad : string) : warehouse (list string) :=
  mk_warehouse (Ok tt) (Ok tt) (journal_engine bad) (fun _ => false)
               (Ok tt) (Raise RequestException) (Ok tt) (Ok tt).


Definition fresh (history : list string) : world (list string) :=
  mk_world [] history history [].

Definition jan10 : json :=
  price_data "2024-01-10" (JStr "10") (JStr "12") (JStr "9") (JStr "11") (JStr "1000") "MSFT".
Definition jan11 : json :=
  price_data "2024-01-11" (JStr "11") (JStr "13") (JStr "10") (JStr "12") (JStr "2000") "MSFT".
Definition jan12 : json :=
  price_data "2024-01-12" (JStr "12") (JStr "14") (JStr "11") (JStr "13") (JStr "3000") "MSFT".


(** A batch of three whose second insert the warehouse rejects. *)
Definition batch3 : list json := [jan10; jan11; jan12].
Definition rejecting_jan11 : warehouse (list string) := journal "2024-01-11".

(** A raw record whose [open] is no number. *)
Definition raw_bar_abc : json :=
  price_data "2024-01-10" (JStr "abc") (JStr "12") (JStr "9") (JStr "11") (JStr "1000") "MSFT".

(** A record whose date field carries SQL of its own. *)
Definition crafted : json :=
  price_data "2024-01-10', 'YYYY-MM-DD'), 'X', 0, 0, 0, 0, 0); DROP TABLE t; --"
             (JStr "10") (JStr "12") (JStr "9") (JStr "11") (JStr "1000") "MSFT".

Ltac each_key :=
  let d := fresh "d" in
  let H := fresh "H" in
  intros d H; simpl in H;
  repeat (destruct H as [H|H]; [subst d|]); [..|destruct H].

(** Brings a trace built by nested appends to its right-nested form. *)
Ltac flatten_trace := repeat (rewrite <- app_assoc; cbn [app]); cbn [app].

(** ** The statements of a batch *)

(** Lines 123-137 for one record, read without the warehouse: the message
    the loop prints for the record and the statement text it builds, or the
    error of the first field the record lacks. *)
Definition record_statement (target_table : string) (r : json)
  : result (event * string) :=
  date <- getitem r "date" ;;
  symbol <- getitem r "symbol" ;;
  open_price <- getitem r "open" ;;
  high_price <- getitem r "high" ;;
  low_price <- getitem r "low" ;;
  close_price <- getitem r "close" ;;
  volume <- getitem r "volume" ;;
  Ok (PrintInserting date open_price symbol high_price low_price close_price volume,
      insert_sql target_table date symbol open_price high_price low_price
                 close_price volume).

Fixpoint batch_statements (target_table : string) (records : list json)
  : result (list (event * string)) :=
  match records with
  | [] => Ok []
  | r :: records' =>
      one <- record_statement target_table r ;;
      rest <- batch_statements target_table records' ;;
      Ok (one :: rest)
  end.

(** The engine applied to statement texts one after the other. *)
Fixpoint apply_all {store} (wh : warehouse store) (sqls : list string) (st : store)
  : result store :=
  match sqls with
  | [] => Ok st
  | sql :: sqls' => st' <- sql_exec wh sql st ;; apply_all wh sqls' st'
  end.

(** The seven keys [load] reads from a record, in the order it reads them. *)
Definition RECORD_KEYS : list string :=
  ["date"; "symbol"; "open"; "high"; "low"; "close"; "volume"].

(** A record as lines 66-74 build it. *)
Definition is_price_data (rec : json) : Prop :=
  exists d o h l c v symbol, rec = price_data d o h l c v symbol.

(** The clock reading minus ninety days, when the clock is in range. *)
Definition cutoff (now : datetime) : datetime :=
  mk_datetime (toordinal now - 90) (time_of_day now).

(** A runtime that differs from [rt] only in what [extract] alone reads:
    the [url] Variable and the behaviour of [str.format] on it. *)
Definition with_template (rt : runtime) (url_template : string)
    (format : string -> string -> string -> result string) : runtime :=
  mk_runtime (("url", url_template) :: variables rt) (requests_get rt) (today rt) format.

(** ** More sample inputs *)

(** Bars that are all older than the window of 2024-02-01. *)
Definition series_old : list (string * json) :=
  [("2023-01-10", bar "1" "2" "1" "2" "100");
   ("2022-12-30", bar "3" "4" "3" "4" "200")].

(** The payload the API sends instead of a series when it refuses a
    request. *)
Definition note_body : json :=
  JObj [("Note", JStr "Thank you for using Alpha Vantage!")].

(** A series with the bar of day [R - 90] for 2024-02-01 and a newer one. *)
Definition series_boundary : list (string * json) :=
  [("2023-11-03", bar "5" "6" "4" "5" "900");
   ("2024-01-10", bar "10" "12" "9" "11" "1000")].

(** A series whose old bar is broken and whose recent bar is complete. *)
Definition series_old_broken : list (string * json) :=
  [("2023-01-10", JNull);
   ("2024-01-10", bar "10" "12" "9" "11" "1000")].

(** A record without its [volume]. *)
Definition jan11_no_volume : json :=
  JObj [("date", JStr "2024-01-11"); ("symbol", JStr "MSFT"); ("open", JStr "11");
        ("high", JStr "13"); ("low", JStr "10"); ("close", JStr "12")].

(** The messages and statements of the batch [[jan10; jan11]], and the
    contents of [journal] once they are applied to [["old"]]. *)
Definition batch2_statements : list (event * string) :=
  Eval vm_compute in
    match batch_statements TARGET [jan10; jan11] with
    | Ok evsqls => evsqls
    | Raise _ => []
    end.

Definition batch2_contents : list string :=
  "old" :: create_sql TARGET :: map snd batch2_statements.

(** * Properties *)

(** ** The embedding on known values *)

Example ordinal_of_epoch : ymd2ord 1970 1 1 = 719163.
Proof. reflexivity. Qed.

Example strptime_plain : strptime "2024-01-10" = Ok (mk_datetime 738895 0).
Proof. vm_compute. reflexivity. Qed.

Example strptime_unpadded : strptime "2024-1-5" = Ok (mk_datetime 738890 0).
Proof. vm_compute. reflexivity. Qed.

Example strptime_no_such_day : strptime "2023-02-29" = Raise ValueError.
Proof. vm_compute. reflexivity. Qed.

Example strptime_trailing_text : strptime "2024-01-10T00:00" = Raise ValueError.
Proof. vm_compute. reflexivity. Qed.

Example str_of_values :
  map str [JStr "10.5"; JInt (-3); JNull; JBool true; JArr [JStr "a"; JInt 1]]
  = ["10.5"; "-3"; "None"; "True"; "['a', 1]"].
Proof. vm_compute. reflexivity. Qed.

(** ** [transform] *)

Section Transform.

Context {store : Type}.
Implicit Types (w : world store) (x : list json).

Lemma append_loop (x acc : list json) :
  fold_left (fun processed_data entry => processed_data ++ [entry]) x acc = acc ++ x.
Proof.
  revert acc. induction x as [|entry x IH]; intro acc; simpl.
  - now rewrite app_nil_r.
  - rewrite IH, <- app_assoc. reflexivity.
Qed.

(** What one run of [transform] does: it prints its input and returns it. *)
Lemma transform_run x w :
  transform x w
  = (Ok x, mk_world (stdout w ++ [PrintProcessed x]) (committed w) (working w) (calls w)).
Proof.
  unfold transform, bindM, print, ret. now rewrite append_loop.
Qed.

(** C10: [transform] is the identity on its input: for every input
    sequence, well typed or not, it returns the same elements in the same
    order, with no coercion, filtering or modification. *)
Theorem transform_identity x w : fst (transform x w) = Ok x.
Proof. now rewrite transform_run. Qed.

(** C9: [transform] is idempotent: running it on its own result returns
    that result again. *)
Theorem transform_idempotent x w :
  exists y w1, transform x w = (Ok y, w1)
               /\ forall w2, fst (transform y w2) = fst (transform x w).
Proof.
  eexists. eexists. split.
  - apply transform_run.
  - intro w2. now rewrite !transform_run.
Qed.

(** C5, as amended: [transform] coerces nothing and validates nothing: it
    never raises, and every field of every record it returns is the input's
    field, unchanged (a numeric string stays a string). *)
Theorem transform_keeps_fields x w :
  exists out, fst (transform x w) = Ok out
              /\ List.length out = List.length x
              /\ forall i field,
                   option_map (fun r => getitem r field) (nth_error out i)
                   = option_map (fun r => getitem r field) (nth_error x i).
Proof.
  exists x. rewrite transform_run. repeat split.
Qed.

End Transform.

(** C5 fails on the code: the record of 2024-01-10 keeps its [open] as the
    string ["10"], and a record whose [open] is ["abc"] is returned as it is
    where the claim wants a [ValidationError]. *)
Lemma transform_no_coercion_counterexample :
  (exists r, fst (transform [jan10] (fresh [])) = Ok [r]
             /\ getitem r "open" = Ok (JStr "10")
             /\ numeric (JStr "10") = false)
  /\ fst (transform [raw_bar_abc] (fresh [])) = Ok [raw_bar_abc]
  /\ fst (transform [raw_bar_abc] (fresh [])) <> Raise ValidationError.
Proof.
  split; [|split].
  - exists jan10. repeat split.
  - reflexivity.
  - discriminate.
Qed.

(** ** [load] on an empty batch *)

(** C7, as amended: on an empty batch [load] acquires no connection,
    creates no table, executes no statement, leaves the table contents as
    they are, prints that there is nothing to load and returns [None]. *)
Theorem load_empty {store} (wh : warehouse store) (w : world store) :
  load wh [] w
  = (Ok JNull,
     mk_world (stdout w ++ [PrintNoRecords]) (committed w) (working w) (calls w)).
Proof. reflexivity. Qed.

(** C7 fails on the code in its last part: what [load] returns on an empty
    batch is [None], not a report with [rowsLoaded = 0]. *)
Lemma load_empty_no_report_counterexample :
  exists v, fst (load (journal "x") [] (fresh ["old"])) = Ok v
            /\ ~ reports_rows v 0.
Proof.
  exists JNull. split; [reflexivity|]. unfold reports_rows. simpl. discriminate.
Qed.

(** ** [return_last_90d_price] *)

Section Window.

Variables (data : json) (ninety_days_ago : datetime) (symbol : string).

Lemma record_of_complete d :
  complete data symbol d -> bar_record data symbol d (record_of data symbol d).
Proof.
  intros (rec & o & h & l & c & v & Ho & Hh & Hl & Hc & Hv & _).
  exists o, h, l, c, v. unfold record_of. rewrite Ho, Hh, Hl, Hc, Hv. simpl. tauto.
Qed.

Lemma bar_record_unique d rec :
  bar_record data symbol d rec -> rec = record_of data symbol d.
Proof.
  intros (o & h & l & c & v & Ho & Hh & Hl & Hc & Hv & ->).
  unfold record_of. now rewrite Ho, Hh, Hl, Hc, Hv.
Qed.

Lemma window_step_parsed results d date_obj :
  strptime d = Ok date_obj -> complete data symbol d ->
  window_step data ninety_days_ago symbol results (JStr d)
  = Ok (results ++ if qualifies ninety_days_ago d then [record_of data symbol d] else []).
Proof.
  intros Hp Hc.
  destruct Hc as (rec & o & h & l & c & v & Ho & Hh & Hl & Hc & Hv & _).
  unfold window_step, qualifies, record_of. rewrite Hp. simpl.
  destruct (ge date_obj ninety_days_ago).
  - rewrite Ho, Hh, Hl, Hc, Hv. reflexivity.
  - now rewrite app_nil_r.
Qed.

Lemma strptime_raises s e : strptime s = Raise e -> e = ValueError.
Proof.
  unfold strptime.
  destruct (re_match s) as [[[[y m] d] rest]|]; [destruct rest|]; try congruence.
  destruct ((1 <=? y) && (d <=? days_in_month y m)); congruence.
Qed.

Lemma window_step_unparsed results d :
  (forall t, strptime d <> Ok t) ->
  window_step data ninety_days_ago symbol results (JStr d) = Raise ValueError.
Proof.
  intro Hp. unfold window_step. destruct (strptime d) as [t|e] eqn:E.
  - now destruct (Hp t).
  - apply strptime_raises in E. now subst.
Qed.

(** The loop over well-formed keys keeps, in iteration order, the records
    of the keys that qualify. *)
Lemma window_loop ks : forall results,
  (forall d, In d ks -> exists t, strptime d = Ok t) ->
  (forall d, In d ks -> complete data symbol d) ->
  for_each (window_step data ninety_days_ago symbol) (map JStr ks) results
  = Ok (results ++ map (record_of data symbol) (filter (qualifies ninety_days_ago) ks)).
Proof.
  induction ks as [|d ks IH]; intros results Hp Hc; cbn [map for_each filter].
  - now rewrite app_nil_r.
  - destruct (Hp d (or_introl eq_refl)) as [t Ht].
    rewrite (window_step_parsed results d t Ht (Hc d (or_introl eq_refl))). cbn [bind].
    rewrite IH; [| intros; apply Hp; now right | intros; apply Hc; now right].
    rewrite <- app_assoc. now destruct (qualifies ninety_days_ago d).
Qed.

(** One key that does not parse makes the loop raise, whatever came
    before it. *)
Lemma window_loop_raises ks d :
  In d ks -> (forall t, strptime d <> Ok t) ->
  forall results,
    exists e, for_each (window_step data ninety_days_ago symbol) (map JStr ks) results
              = Raise e.
Proof.
  intros Hin Hp. induction ks as [|d' ks IH]; [destruct Hin|]. intro results.
  cbn [map for_each].
  destruct (window_step data ninety_days_ago symbol results (JStr d')) as [r|e] eqn:E.
  - destruct Hin as [->|Hin].
    + rewrite window_step_unparsed in E by assumption. discriminate.
    + cbn [bind]. now apply IH.
  - now exists e.
Qed.

Lemma window_loop_ValueError ks d :
  In d ks -> (forall t, strptime d <> Ok t) ->
  (forall d', In d' ks -> complete data symbol d') ->
  forall results,
    for_each (window_step data ninety_days_ago symbol) (map JStr ks) results
    = Raise ValueError.
Proof.
  intros Hin Hp. induction ks as [|d' ks IH]; [destruct Hin|]. intros Hc results.
  cbn [map for_each].
  destruct (strptime d') as [t|e] eqn:E.
  - rewrite (window_step_parsed results d' t E (Hc d' (or_introl eq_refl))). cbn [bind].
    destruct Hin as [->|Hin]; [now destruct (Hp t)|].
    apply IH; [assumption|]. intros; apply Hc; now right.
  - rewrite window_step_unparsed; [reflexivity|]. intros t Ht. congruence.
Qed.

End Window.

Lemma get_default_series data S :
  getitem data SERIES = Ok (JObj S) ->
  get_default data SERIES (JObj []) = Ok (JObj S).
Proof.
  destruct data; simpl; try discriminate.
  destruct (dict_get SERIES m); [trivial | discriminate].
Qed.

Lemma sub_days_valid now :
  90 < toordinal now <= MAXORDINAL ->
  sub_days now 90 = Ok (mk_datetime (toordinal now - 90) (time_of_day now)).
Proof.
  intro H. unfold sub_days.
  replace ((0 <? toordinal now - 90) && (toordinal now - 90 <=? MAXORDINAL)) with true;
    [reflexivity|].
  symmetry. apply andb_true_iff. split; [apply Z.ltb_lt | apply Z.leb_le]; lia.
Qed.

(** Lines 58-77 on a well-formed series. *)
Lemma filter_last_90d_wf data S now symbol :
  getitem data SERIES = Ok (JObj S) ->
  90 < toordinal now <= MAXORDINAL ->
  (forall d, In d (keys S) -> exists t, strptime d = Ok t) ->
  (forall d, In d (keys S) -> complete data symbol d) ->
  filter_last_90d data now symbol
  = Ok (map (record_of data symbol)
            (filter (qualifies (mk_datetime (toordinal now - 90) (time_of_day now)))
                    (keys S))).
Proof.
  intros Hs Hnow Hp Hc. unfold filter_last_90d.
  rewrite (sub_days_valid now Hnow). simpl.
  rewrite (get_default_series data S Hs). simpl.
  now rewrite window_loop.
Qed.

Lemma ge_lower_bound a b : ge a b = true -> toordinal b <= toordinal a.
Proof.
  unfold ge. intro H. apply orb_true_iff in H. destruct H as [H|H].
  - apply Z.ltb_lt in H. lia.
  - apply andb_true_iff in H. destruct H as [H _]. apply Z.eqb_eq in H. lia.
Qed.

Lemma ge_later_day a b : toordinal b < toordinal a -> ge a b = true.
Proof.
  intro H. unfold ge. apply orb_true_iff. left. now apply Z.ltb_lt.
Qed.

(** On day [R - 90] itself the comparison of line 64 is between midnight
    and the time of day of the clock. *)
Lemma ge_boundary_day o us : ge (mk_datetime o 0) (mk_datetime o us) = (us <=? 0).
Proof.
  unfold ge. simpl. now rewrite Z.ltb_irrefl, Z.eqb_refl.
Qed.

(** C1, as amended: on a series whose keys all parse and whose bars are
    complete, the task returns, and what it returns is bounded below only:
    every record is the bar of a key of the series dated [R - 90] or later,
    and every key dated after [R - 90] has its record in the result. *)
Theorem window_filter_lower_bound rt symbol data S :
  fetch_daily rt symbol = Ok data ->
  getitem data SERIES = Ok (JObj S) ->
  90 < toordinal (today rt) <= MAXORDINAL ->
  (forall d, In d (keys S) -> exists t, strptime d = Ok t) ->
  (forall d, In d (keys S) -> complete data symbol d) ->
  exists out,
    return_last_90d_price rt symbol = Ok out
    /\ (forall rec, In rec out ->
          exists d t, In d (keys S) /\ bar_record data symbol d rec
                      /\ strptime d = Ok t
                      /\ toordinal (today rt) - 90 <= toordinal t)
    /\ (forall d t, In d (keys S) -> strptime d = Ok t ->
          toordinal (today rt) - 90 < toordinal t ->
          exists rec, In rec out /\ bar_record data symbol d rec).
Proof.
  intros Hf Hs Hnow Hp Hc. eexists. split; [|split].
  - unfold return_last_90d_price. rewrite Hf. simpl.
    apply (filter_last_90d_wf data S (today rt) symbol Hs Hnow Hp Hc).
  - intros rec Hin. apply in_map_iff in Hin. destruct Hin as (d & <- & Hin).
    apply filter_In in Hin. destruct Hin as [Hin Hq].
    unfold qualifies in Hq. destruct (strptime d) as [t|] eqn:E; [|discriminate].
    exists d, t. repeat split; try assumption.
    + apply record_of_complete. now apply Hc.
    + apply ge_lower_bound in Hq. exact Hq.
  - intros d t Hin Ht Hlt. exists (record_of data symbol d). split.
    + apply in_map. apply filter_In. split; [assumption|].
      unfold qualifies. rewrite Ht. now apply ge_later_day.
    + apply record_of_complete. now apply Hc.
Qed.

Lemma window_filter_lower_bound_witness :
  exists out,
    return_last_90d_price (serving (ok_200 series_ok) feb1_1am) "MSFT" = Ok out
    /\ (forall rec, In rec out ->
          exists d t, In d (keys series_ok)
                      /\ bar_record (daily series_ok) "MSFT" d rec
                      /\ strptime d = Ok t
                      /\ toordinal feb1_1am - 90 <= toordinal t)
    /\ (forall d t, In d (keys series_ok) -> strptime d = Ok t ->
          toordinal feb1_1am - 90 < toordinal t ->
          exists rec, In rec out /\ bar_record (daily series_ok) "MSFT" d rec).
Proof.
  apply (window_filter_lower_bound (serving (ok_200 series_ok) feb1_1am) "MSFT"
           (daily series_ok) series_ok).
  - reflexivity.
  - reflexivity.
  - unfold MAXORDINAL; simpl; lia.
  - each_key; eexists; vm_compute; reflexivity.
  - each_key; eexists; do 5 eexists; repeat split.
Defined.

(** C1 fails on the code at both ends of the window.  With the clock at
    2024-02-01 01:00, the bar of 2024-03-01 is returned although it lies
    after [R], and the bar of 2023-11-03, which is day [R - 90], is left
    out. *)
Lemma window_filter_calendar_range_counterexample :
  exists out,
    return_last_90d_price (serving (ok_200 series_edges) feb1_1am) "MSFT" = Ok out
    /\ ~ all_in_window (toordinal feb1_1am) (daily series_edges) "MSFT" series_edges out
    /\ ~ none_omitted (toordinal feb1_1am) (daily series_edges) "MSFT" series_edges out.
Proof.
  eexists. split; [vm_compute; reflexivity|]. split.
  - intro H. destruct (H _ (or_introl eq_refl)) as (d & t & _ & Hrec & Ht & Hw).
    destruct Hrec as (o & h & l & c & v & _ & _ & _ & _ & _ & Hrec).
    injection Hrec as Hd _ _ _ _ _. subst d.
    vm_compute in Ht. injection Ht as <-.
    unfold in_window in Hw. simpl in Hw. lia.
  - intro H.
    destruct (H "2023-11-03" (mk_datetime 738827 0)) as (rec & Hin & Hrec).
    + simpl. tauto.
    + vm_compute. reflexivity.
    + unfold in_window. simpl. lia.
    + destruct Hrec as (o & h & l & c & v & _ & _ & _ & _ & _ & ->).
      destruct Hin as [Hin|[]]. discriminate Hin.
Qed.

(** C6, as amended: a date key that does not parse is fatal: the task
    raises instead of returning, and on a series whose bars are complete
    the error is the [ValueError] of [strptime]. *)
Theorem invalid_date_key_is_fatal rt symbol data S d :
  fetch_daily rt symbol = Ok data ->
  getitem data SERIES = Ok (JObj S) ->
  In d (keys S) ->
  (forall t, strptime d <> Ok t) ->
  (exists e, return_last_90d_price rt symbol = Raise e)
  /\ (90 < toordinal (today rt) <= MAXORDINAL ->
      (forall d', In d' (keys S) -> complete data symbol d') ->
      return_last_90d_price rt symbol = Raise ValueError).
Proof.
  intros Hf Hs Hin Hp. unfold return_last_90d_price. rewrite Hf. simpl.
  unfold filter_last_90d. rewrite (get_default_series data S Hs). split.
  - destruct (sub_days (today rt) 90) as [ninety|e]; simpl; [|now exists e].
    now apply (window_loop_raises data ninety symbol (keys S) d).
  - intros Hnow Hc. rewrite (sub_days_valid _ Hnow). simpl.
    now apply (window_loop_ValueError data _ symbol (keys S) d).
Qed.

Lemma invalid_date_key_is_fatal_witness :
  (exists e,
     return_last_90d_price (serving (ok_200 series_bad_key) feb1_1am) "MSFT" = Raise e)
  /\ return_last_90d_price (serving (ok_200 series_bad_key) feb1_1am) "MSFT"
     = Raise ValueError.
Proof.
  destruct (invalid_date_key_is_fatal (serving (ok_200 series_bad_key) feb1_1am) "MSFT"
              (daily series_bad_key) series_bad_key "2024-02-30") as [Hraise Hvalue].
  - reflexivity.
  - reflexivity.
  - simpl. tauto.
  - intros t Ht. vm_compute in Ht. discriminate Ht.
  - split; [exact Hraise|]. apply Hvalue.
    + unfold MAXORDINAL; simpl; lia.
    + each_key; eexists; do 5 eexists; repeat split.
Defined.

(** C6 fails on the code: 2024-02-30 is no calendar date, and with that key
    in the series the task raises [ValueError] instead of returning the two
    bars around it. *)
Lemma invalid_date_key_counterexample :
  In "2024-02-30" (keys series_bad_key)
  /\ strptime "2024-02-30" = Raise ValueError
  /\ return_last_90d_price (serving (ok_200 series_bad_key) feb1_1am) "MSFT"
     = Raise ValueError
  /\ ~ exists out,
         return_last_90d_price (serving (ok_200 series_bad_key) feb1_1am) "MSFT" = Ok out.
Proof.
  split; [simpl; tauto|]. split; [vm_compute; reflexivity|].
  split; [vm_compute; reflexivity|].
  intros [out H]. vm_compute in H. discriminate H.
Qed.

(** ** How a run of [load] unfolds *)

Section LoadRun.

Context {store : Type} (wh : warehouse store).
Implicit Types (w : world store) (records : list json).

Lemma world_eta w : mk_world (stdout w) (committed w) (working w) (calls w) = w.
Proof. now destruct w. Qed.

Lemma keeps_bind {A B} (c : M store A) (k : A -> M store B) :
  keeps_committed c -> (forall a, keeps_committed (k a)) -> keeps_committed (bindM c k).
Proof.
  intros Hc Hk w. unfold bindM. specialize (Hc w).
  destruct (c w) as [[a|e] w1]; simpl in *; [|assumption].
  now rewrite Hk.
Qed.

Lemma keeps_lift {A} (r : result A) : keeps_committed (lift (store := store) r).
Proof. now intro w. Qed.

Lemma keeps_print ev : keeps_committed (print (store := store) ev).
Proof. now intro w. Qed.

Lemma cur_execute_run sql w :
  cur_execute wh sql w
  = match sql_exec wh sql (working w) with
    | Ok st => (Ok tt, mk_world (stdout w)
                                (if autocommits wh sql then st else committed w)
                                st (calls w ++ [Execute sql]))
    | Raise e => (Raise e, mk_world (stdout w) (committed w) (working w)
                                    (calls w ++ [Execute sql]))
    end.
Proof.
  unfold cur_execute, log_call. cbn [stdout committed working calls].
  now destruct (sql_exec wh sql (working w)).
Qed.

(** In a session that holds its statements, executing one publishes
    nothing. *)
Lemma keeps_execute sql : staged_session wh -> keeps_committed (cur_execute wh sql).
Proof.
  intros Hs w. rewrite cur_execute_run.
  destruct (sql_exec wh sql (working w)); simpl; [|reflexivity].
  now rewrite (Hs sql).
Qed.

Lemma keeps_insert_record r :
  staged_session wh -> keeps_committed (insert_record wh TARGET r).
Proof.
  intro Hs. unfold insert_record.
  repeat (apply keeps_bind; [apply keeps_lift | intro]).
  apply keeps_bind; [apply keeps_print | intro]. now apply keeps_execute.
Qed.

Lemma keeps_for_M {A} (body : A -> M store unit) xs :
  (forall x, keeps_committed (body x)) -> keeps_committed (for_M body xs).
Proof.
  intro Hb. induction xs as [|x xs IH]; simpl.
  - now intro w.
  - apply keeps_bind; [apply Hb | now intro].
Qed.

(** The loop body reads the seven fields first and touches nothing until
    all of them are there. *)
Lemma insert_record_statement r w :
  insert_record wh TARGET r w
  = match record_statement TARGET r with
    | Ok (ev, sql) => bindM (print ev) (fun _ => cur_execute wh sql) w
    | Raise e => (Raise e, w)
    end.
Proof.
  unfold insert_record, record_statement, bindM, lift.
  repeat match goal with
         | |- context [getitem r ?k] => destruct (getitem r k); simpl; [|reflexivity]
         end.
  reflexivity.
Qed.

Lemma insert_record_run r w ev sql :
  record_statement TARGET r = Ok (ev, sql) ->
  insert_record wh TARGET r w
  = match sql_exec wh sql (working w) with
    | Ok st => (Ok tt, mk_world (stdout w ++ [ev])
                                (if autocommits wh sql then st else committed w)
                                st (calls w ++ [Execute sql]))
    | Raise e => (Raise e, mk_world (stdout w ++ [ev]) (committed w) (working w)
                                    (calls w ++ [Execute sql]))
    end.
Proof.
  intro H. rewrite insert_record_statement, H.
  unfold bindM, print. rewrite cur_execute_run. simpl.
  now destruct (sql_exec wh sql (working w)).
Qed.

(** The loop stops at the first record whose insert raises. *)
Lemma for_M_stops {A} (body : A -> M store unit) xs : forall k x w wk e w2,
  nth_error xs k = Some x ->
  for_M body (firstn k xs) w = (Ok tt, wk) ->
  body x wk = (Raise e, w2) ->
  for_M body xs w = (Raise e, w2).
Proof.
  induction xs as [|y xs IH]; intros k x w wk e w2 Hn Hpre Hx.
  - now destruct k.
  - destruct k as [|k]; simpl in *.
    + injection Hn as ->. injection Hpre as <-. unfold bindM. now rewrite Hx.
    + unfold bindM in *. destruct (body y w) as [[[]|e1] w1]; [|discriminate].
      now apply (IH k x w1 wk).
Qed.

(** The loop on a batch whose statements the engine all accepts. *)
Lemma for_M_staged records : forall evsqls w st,
  batch_statements TARGET records = Ok evsqls ->
  apply_all wh (map snd evsqls) (working w) = Ok st ->
  exists c,
    for_M (insert_record wh TARGET) records w
    = (Ok tt, mk_world (stdout w ++ map fst evsqls) c st
                       (calls w ++ map Execute (map snd evsqls))).
Proof.
  induction records as [|r records IH]; intros evsqls w st Hb Ha; simpl in Hb.
  - injection Hb as <-. simpl in *. injection Ha as <-. exists (committed w).
    unfold ret. now rewrite !app_nil_r, world_eta.
  - destruct (record_statement TARGET r) as [[ev sql]|e] eqn:Hr; [|discriminate].
    simpl in Hb.
    destruct (batch_statements TARGET records) as [rest|e] eqn:Hrest; [|discriminate].
    injection Hb as <-. simpl in Ha.
    destruct (sql_exec wh sql (working w)) as [st1|e] eqn:Hx; [|discriminate].
    simpl in Ha. cbn [for_M]. unfold bindM at 1.
    rewrite (insert_record_run r w ev sql Hr), Hx.
    destruct (IH rest (mk_world (stdout w ++ [ev])
                                (if autocommits wh sql then st1 else committed w) st1
                                (calls w ++ [Execute sql])) st eq_refl Ha) as [c Hc].
    exists c. rewrite Hc. simpl. now rewrite <- !app_assoc.
Qed.

(** A loop that ran to its end has read every record and had every
    statement accepted. *)
Lemma for_M_ok_inv records : forall w w2,
  for_M (insert_record wh TARGET) records w = (Ok tt, w2) ->
  exists evsqls,
    batch_statements TARGET records = Ok evsqls
    /\ apply_all wh (map snd evsqls) (working w) = Ok (working w2).
Proof.
  induction records as [|r records IH]; intros w w2 H; simpl in H.
  - injection H as <-. now exists [].
  - unfold bindM in H.
    destruct (record_statement TARGET r) as [[ev sql]|e] eqn:Hr;
      [|rewrite insert_record_statement, Hr in H; discriminate].
    rewrite (insert_record_run r w ev sql Hr) in H.
    destruct (sql_exec wh sql (working w)) as [st1|e] eqn:Hx; [|discriminate].
    apply IH in H. destruct H as (rest & Hrest & Ha). simpl in Ha.
    exists ((ev, sql) :: rest). cbn [batch_statements map snd apply_all].
    rewrite Hr, Hx. cbn [bind]. rewrite Hrest. now split.
Qed.

(** Whatever its outcome, the loop adds to the trace the inserts of the
    first records of the batch, in order, and nothing else; when it ran to
    its end these are the inserts of all records. *)
Lemma for_M_calls records : forall w r w2,
  for_M (insert_record wh TARGET) records w = (r, w2) ->
  exists n evsqls,
    (n <= List.length records)%nat
    /\ batch_statements TARGET (firstn n records) = Ok evsqls
    /\ calls w2 = calls w ++ map Execute (map snd evsqls)
    /\ (r = Ok tt -> n = List.length records).
Proof.
  induction records as [|r0 records IH]; intros w r w2 H; simpl in H.
  - injection H as <- <-. exists 0%nat, []. simpl. rewrite app_nil_r. now repeat split.
  - unfold bindM in H.
    destruct (record_statement TARGET r0) as [[ev sql]|e] eqn:Hr.
    + rewrite (insert_record_run r0 w ev sql Hr) in H.
      destruct (sql_exec wh sql (working w)) as [st1|e] eqn:Hx.
      * apply IH in H. destruct H as (n & evsqls & Hn & Hb & Hc & Hlen).
        exists (S n), ((ev, sql) :: evsqls). simpl in Hc |- *.
        rewrite Hr. cbn [bind]. rewrite Hb. cbn [bind].
        repeat split; [lia | rewrite Hc; now rewrite <- app_assoc | intro; f_equal; auto].
      * injection H as <- <-. exists 1%nat, [(ev, sql)]. simpl. rewrite Hr. cbn [bind].
        repeat split; [lia | discriminate].
    + rewrite insert_record_statement, Hr in H. injection H as <- <-.
      exists 0%nat, []. simpl. rewrite app_nil_r.
      repeat split; [lia | discriminate].
Qed.

(** The [try] block, step by step. *)
Lemma load_batch_run records w :
  load_batch wh TARGET records w
  = match cur_execute wh (create_sql TARGET) w with
    | (Raise e, w1) => (Raise e, w1)
    | (Ok _, w1) =>
        match for_M (insert_record wh TARGET) records w1 with
        | (Raise e, w2) => (Raise e, w2)
        | (Ok _, w2) =>
            match commit wh with
            | Ok _ => (Ok tt, mk_world (stdout w2 ++ [PrintLoaded (List.length records) TARGET])
                                       (working w2) (working w2) (calls w2 ++ [Commit]))
            | Raise e => (Raise e, log_call Commit w2)
            end
        end
    end.
Proof.
  unfold load_batch. unfold bindM at 1.
  destruct (cur_execute wh (create_sql TARGET) w) as [[[]|e] w1]; [|reflexivity].
  unfold bindM at 1.
  destruct (for_M (insert_record wh TARGET) records w1) as [[[]|e] w2]; [|reflexivity].
  unfold bindM, conn_commit, print, log_call. simpl.
  now destruct (commit wh).
Qed.

(** [load] once the connection and its cursor are there: the [try] block,
    then the [except] block, then the [finally] block. *)
Lemma load_connected records w :
  records <> [] ->
  connect wh = Ok tt ->
  cursor wh = Ok tt ->
  load wh records w
  = match load_batch wh TARGET records (connected w) with
    | (r0, w2) => match handler_outcome wh r0 w2 with
                  | (r1, w3) => closes_outcome wh r1 w3
                  end
    end.
Proof.
  intros Hne Hc Hcur. destruct records as [|r records]; [congruence|].
  unfold load, bindM, hook_get_conn, conn_cursor, try_finally, try_except.
  rewrite Hc. cbn [log_call stdout committed working calls]. rewrite Hcur.
  fold TARGET. unfold connected.
  destruct (load_batch wh TARGET (r :: records) _) as [[[]|e] w2];
    unfold handler_outcome, closes_outcome, conn_rollback, print, cur_close, conn_close,
           log_call, ret; cbn [stdout committed working calls].
  - destruct (close_cursor wh); [destruct (close_conn wh)|]; reflexivity.
  - destruct (rollback wh); cbn [stdout committed working calls];
      (destruct (close_cursor wh); [destruct (close_conn wh)|]); reflexivity.
Qed.

Lemma load_not_connected records w e :
  records <> [] ->
  connect wh = Raise e ->
  load wh records w = (Raise e, log_call GetConn w).
Proof.
  intros Hne Hc. destruct records as [|r records]; [congruence|].
  unfold load, bindM, hook_get_conn. now rewrite Hc.
Qed.

Lemma load_no_cursor records w e :
  records <> [] ->
  connect wh = Ok tt ->
  cursor wh = Raise e ->
  load wh records w
  = (Raise e, mk_world (stdout w) (committed w) (committed w)
                       ((calls w ++ [GetConn]) ++ [Cursor])).
Proof.
  intros Hne Hc Hcur. destruct records as [|r records]; [congruence|].
  unfold load, bindM, hook_get_conn, conn_cursor. rewrite Hc.
  cbn [log_call stdout committed working calls]. now rewrite Hcur.
Qed.

(** What the [finally] block leaves of the contents, and adds to the
    trace. *)
Lemma closes_outcome_world r w :
  committed (snd (closes_outcome wh r w)) = committed w
  /\ working (snd (closes_outcome wh r w)) = working w
  /\ stdout (snd (closes_outcome wh r w)) = stdout w
  /\ calls (snd (closes_outcome wh r w)) = calls w ++ closing_calls wh.
Proof.
  unfold closes_outcome, closing_calls.
  destruct (close_cursor wh); [destruct (close_conn wh)|]; simpl;
    repeat split; now rewrite <- ?app_assoc.
Qed.

(** A failing insert, seen from the [try] block. *)
Lemma insert_fails_batch records w k e :
  insert_fails wh records w k e ->
  exists w2 sqls,
    load_batch wh TARGET records (connected w) = (Raise e, w2)
    /\ calls w2 = calls (connected w) ++ map Execute (create_sql TARGET :: sqls)
    /\ (staged_session wh -> committed w2 = committed w).
Proof.
  intros (r & wk & Hn & Hpre & Hr).
  destruct (insert_record wh TARGET r wk) as [res w2] eqn:E. simpl in Hr. subst res.
  unfold bindM in Hpre.
  destruct (cur_execute wh (create_sql TARGET) (connected w)) as [[[]|e1] w1] eqn:Hx;
    [|discriminate].
  pose proof (for_M_stops _ records k r w1 wk e w2 Hn Hpre E) as Hloop.
  destruct (for_M_calls records w1 _ w2 Hloop) as (n & evsqls & _ & _ & Hc & _).
  exists w2, (map snd evsqls). split; [|split].
  - now rewrite load_batch_run, Hx, Hloop.
  - rewrite Hc. rewrite cur_execute_run in Hx.
    destruct (sql_exec wh (create_sql TARGET) (working (connected w))); [|discriminate].
    injection Hx as <-. simpl. now rewrite <- app_assoc.
  - intro Hs.
    pose proof (keeps_for_M (insert_record wh TARGET) records
                  (fun x => keeps_insert_record x Hs) w1) as K2.
    rewrite Hloop in K2. simpl in K2. rewrite K2.
    pose proof (keeps_execute (create_sql TARGET) Hs (connected w)) as K1.
    rewrite Hx in K1. exact K1.
Qed.

Lemma creation_fails_batch records w e :
  creation_fails wh w e ->
  exists w2,
    load_batch wh TARGET records (connected w) = (Raise e, w2)
    /\ calls w2 = calls (connected w) ++ [Execute (create_sql TARGET)]
    /\ committed w2 = committed w.
Proof.
  unfold creation_fails. intro H. rewrite load_batch_run.
  rewrite cur_execute_run in H |- *.
  destruct (sql_exec wh (create_sql TARGET) (working (connected w))); [discriminate|].
  simpl in H. injection H as ->. eexists. now repeat split.
Qed.


(** C3, as amended: a failure of the table creation or of an insert does
    not reach the caller of [load]: the [except] block calls rollback and
    prints the error and the [finally] block closes cursor and connection,
    and when these calls return [load] returns [None] normally.  An error
    that does leave [load] is the very error that [get_conn], [cursor],
    [rollback] or one of the two closes raised: [load] raises nothing of
    its own making, hence no [LoadError]. *)
Theorem load_swallows_failure records w :
  (forall k e,
     records <> [] ->
     connect wh = Ok tt -> cursor wh = Ok tt -> rollback wh = Ok tt ->
     close_cursor wh = Ok tt -> close_conn wh = Ok tt ->
     creation_fails wh w e \/ insert_fails wh records w k e ->
     exists w2,
       load wh records w
       = (Ok JNull,
          mk_world (stdout w2 ++ [PrintError e]) (committed w2) (committed w2)
                   (((calls w2 ++ [Rollback]) ++ [CursorClose]) ++ [ConnClose])))
  /\ (forall e',
        fst (load wh records w) = Raise e' ->
        connect wh = Raise e' \/ cursor wh = Raise e' \/ rollback wh = Raise e'
        \/ close_cursor wh = Raise e' \/ close_conn wh = Raise e').
Proof.
  split.
  - intros k e Hne Hc Hcur Hr Hcc Hcn Hf.
    assert (exists w2, load_batch wh TARGET records (connected w) = (Raise e, w2))
      as [w2 Hb].
    { destruct Hf as [Hf|Hf].
      - destruct (creation_fails_batch records w e Hf) as (w2 & Hb & _). now exists w2.
      - destruct (insert_fails_batch records w k e Hf) as (w2 & _ & Hb & _).
        now exists w2. }
    exists w2. rewrite (load_connected records w Hne Hc Hcur), Hb.
    unfold handler_outcome, closes_outcome. now rewrite Hr, Hcc, Hcn.
  - intros e' H. destruct records as [|r records]; [discriminate|].
    destruct (connect wh) as [[]|ec] eqn:Hc.
    + destruct (cursor wh) as [[]|ecur] eqn:Hcur.
      * rewrite (load_connected (r :: records) w) in H by (trivial; discriminate).
        destruct (load_batch wh TARGET (r :: records) (connected w)) as [r0 w2].
        unfold handler_outcome, closes_outcome in H.
        destruct (close_cursor wh) as [[]|e1];
          [|simpl in H; destruct r0; [|destruct (rollback wh)]; simpl in H;
            injection H as ->; auto].
        destruct (close_conn wh) as [[]|e2];
          [|destruct r0; [|destruct (rollback wh)]; simpl in H; injection H as ->; auto].
        destruct r0 as [[]|e0]; [discriminate|].
        destruct (rollback wh) as [[]|e3]; simpl in H; [discriminate|].
        injection H as ->. auto.
      * rewrite (load_no_cursor (r :: records) w ecur) in H by (trivial; discriminate).
        simpl in H. injection H as ->. auto.
    + rewrite (load_not_connected (r :: records) w ec) in H by (trivial; discriminate).
      simpl in H. injection H as ->. auto.
Qed.

End LoadRun.

Lemma jan11_insert_fails :
  insert_fails rejecting_jan11 batch3 (fresh ["old"]) 1 DatabaseError.
Proof.
  exists jan11. eexists. split; [reflexivity|]. split; vm_compute; reflexivity.
Qed.



Lemma load_swallows_failure_witness :
  (exists w2 : world (list string),
     load rejecting_jan11 batch3 (fresh ["old"])
     = (Ok JNull,
        mk_world (stdout w2 ++ [PrintError DatabaseError]) (committed w2) (committed w2)
                 (((calls w2 ++ [Rollback]) ++ [CursorClose]) ++ [ConnClose])))
  /\ (fst (load (failing_rollback "2024-01-11") batch3 (fresh ["old"]))
      = Raise RequestException
      /\ rollback (failing_rollback "2024-01-11") = Raise RequestException).
Proof.
  destruct (load_swallows_failure rejecting_jan11 batch3 (fresh ["old"]))
    as [Hfail _].
  destruct (load_swallows_failure (failing_rollback "2024-01-11") batch3 (fresh ["old"]))
    as [_ Horigin].
  split.
  - apply (Hfail 1%nat DatabaseError); try reflexivity; [discriminate|].
    right. exists jan11. eexists. split; [reflexivity|]. split; vm_compute; reflexivity.
  - split; [vm_compute; reflexivity|].
    destruct (Horigin RequestException) as [H|[H|[H|[H|H]]]];
      [vm_compute; reflexivity | discriminate H | discriminate H | exact H
      | discriminate H | discriminate H].
Defined.

(** C3 fails on the code: the second insert of the batch raises
    [DatabaseError] in the warehouse, and [load] returns [None] to its
    caller instead of raising a [LoadError] that wraps it. *)
Lemma load_surfaces_no_error_counterexample :
  insert_fails rejecting_jan11 batch3 (fresh ["old"]) 1 DatabaseError
  /\ fst (load rejecting_jan11 batch3 (fresh ["old"])) = Ok JNull
  /\ fst (load rejecting_jan11 batch3 (fresh ["old"])) <> Raise (LoadError DatabaseError).
Proof.
  split; [exact jan11_insert_fails|]. split; [vm_compute; reflexivity|].
  vm_compute. discriminate.
Qed.

(** ** The statement text [load] sends *)

(** C4 fails on the code, against the comment of line 133: the statement
    text is built with an f-string, so the texts sent for two records
    differ, each carries the record's values, and a date field that holds
    SQL of its own reaches the warehouse as statement text. *)
Theorem load_interpolates_values :
  (exists sql1 sql2,
     calls (snd (load (journal "never") [jan10; jan11] (fresh [])))
     = [GetConn; Cursor; Execute (create_sql TARGET); Execute sql1; Execute sql2;
        Commit; CursorClose; ConnClose]
     /\ sql1 <> sql2
     /\ mentions "TO_DATE('2024-01-10', 'YYYY-MM-DD'), 'MSFT', 10, 12, 9, 11, 1000" sql1
        = true
     /\ mentions "TO_DATE('2024-01-11', 'YYYY-MM-DD'), 'MSFT', 11, 13, 10, 12, 2000" sql2
        = true)
  /\ (exists sql,
        calls (snd (load (journal "never") [crafted] (fresh [])))
        = [GetConn; Cursor; Execute (create_sql TARGET); Execute sql;
           Commit; CursorClose; ConnClose]
        /\ mentions "DROP TABLE t;" sql = true).
Proof.
  split.
  - eexists. eexists. split; [vm_compute; reflexivity|].
    split; [intro H; vm_compute in H; discriminate H|].
    split; vm_compute; reflexivity.
  - eexists. split; vm_compute; reflexivity.
Qed.

(** ** [extract] and the DAG *)

(** C8, as amended: [extract] never looks at the HTTP status.  With the
    request answered, what it does is decided by the body alone: it
    returns the decoded body when the body is JSON, whatever the status,
    and raises the decoding error when it is not.  An error that leaves
    [extract] is always the error of one of the calls it makes
    ([Variable.get], [str.format], [requests.get], [response.json]):
    [extract] raises nothing of its own making.  No downstream stage takes
    the output of [extract]: whatever became of it, the filter stage runs
    on its own request, [transform] runs whenever the filter returned, and
    [load] runs on the list the filter returned. *)
Theorem extract_ignores_status rt :
  (forall api_key url_template url r,
     Variable_get rt "alpha_vantage_api_key" = Ok api_key ->
     Variable_get rt "url" = Ok url_template ->
     str_format rt url_template "MSFT" api_key = Ok url ->
     requests_get rt url = Ok r ->
     extract rt = match body_json r with
                  | Some data => Ok data
                  | None => Raise JSONDecodeError
                  end)
  /\ (forall e, extract rt = Raise e ->
        Variable_get rt "alpha_vantage_api_key" = Raise e
        \/ Variable_get rt "url" = Raise e
        \/ (exists t k, str_format rt t "MSFT" k = Raise e)
        \/ (exists url, requests_get rt url = Raise e)
        \/ (exists url r, requests_get rt url = Ok r /\ response_json r = Raise e))
  /\ (forall store (wh : warehouse store) (w : world store),
        filter_state (fst (run_dag rt wh w)) = state_of (return_last_90d_price rt "MSFT")
        /\ transform_state (fst (run_dag rt wh w))
           = match return_last_90d_price rt "MSFT" with
             | Ok _ => success
             | Raise _ => upstream_failed
             end
        /\ load_state (fst (run_dag rt wh w))
           = match return_last_90d_price rt "MSFT" with
             | Ok out =>
                 state_of (fst (load wh out
                                     (mk_world (stdout w ++ [PrintProcessed out])
                                               (committed w) (working w) (calls w))))
             | Raise _ => upstream_failed
             end).
Proof.
  split; [|split].
  - intros api_key url_template url r Hk Ht Hu Hr.
    unfold extract. rewrite Hk, Ht. cbn [bind]. rewrite Hu. cbn [bind].
    rewrite Hr. cbn [bind]. unfold response_json. now destruct (body_json r).
  - intros e. unfold extract.
    destruct (Variable_get rt "alpha_vantage_api_key") as [k|e0]; cbn [bind];
      [|intro H; injection H as <-; now left].
    destruct (Variable_get rt "url") as [t|e0]; cbn [bind];
      [|intro H; injection H as <-; right; now left].
    destruct (str_format rt t "MSFT" k) as [url|e1] eqn:Ef; cbn [bind];
      [|intro H; injection H as <-; right; right; left; now exists t, k].
    destruct (requests_get rt url) as [r|e2] eqn:Er; cbn [bind];
      [|intro H; injection H as <-; right; right; right; left; now exists url].
    destruct (response_json r) as [d|e3] eqn:Ej; cbn [bind]; [discriminate|].
    intro H; injection H as <-. right. right. right. right. now exists url, r.
  - intros store wh w. unfold run_dag.
    destruct (return_last_90d_price rt "MSFT") as [last|e]; [|now repeat split].
    rewrite transform_run. now destruct (load wh last _).
Qed.

Lemma extract_ignores_status_witness :
  status_code (mk_response 500 (Some error_body)) = 500
  /\ extract extract_gets_500 = Ok error_body.
Proof.
  split; [reflexivity|].
  apply (proj1 (extract_ignores_status extract_gets_500)
           "demo" "https://example.test/q" "https://example.test/q"
           (mk_response 500 (Some error_body))); reflexivity.
Defined.

(** C8 fails on the code: the response to [extract] has status 500, yet
    [extract] returns its body instead of raising
    [ExternalServiceError], and the filter, transform and load stages all
    run in that DAG run, down to the commit. *)
Lemma extract_http_500_counterexample :
  (exists url r, requests_get extract_gets_500 url = Ok r /\ status_code r = 500
                 /\ extract extract_gets_500 = Ok error_body)
  /\ extract extract_gets_500 <> Raise ExternalServiceError
  /\ (exists w,
        run_dag extract_gets_500 (journal "never") (fresh [])
        = (mk_dag_run success success success success, w)
        /\ In Commit (calls w)).
Proof.
  split; [|split].
  - exists "https://example.test/q", (mk_response 500 (Some error_body)).
    repeat split.
  - discriminate.
  - eexists. split; [vm_compute; reflexivity|]. simpl. tauto.
Qed.

(** * Further properties of the tasks *)

(** ** The protocol [load] follows on the connection *)

Section LoadProtocol.

Context {store : Type} (wh : warehouse store).
Implicit Types (w : world store) (records : list json).

(** The [try] block on a batch the engine accepts in full. *)
Lemma load_batch_staged records evsqls w st :
  batch_statements TARGET records = Ok evsqls ->
  apply_all wh (create_sql TARGET :: map snd evsqls) (working w) = Ok st ->
  commit wh = Ok tt ->
  load_batch wh TARGET records w
  = (Ok tt,
     mk_world (stdout w ++ map fst evsqls ++ [PrintLoaded (List.length records) TARGET])
              st st
              (calls w ++ map Execute (create_sql TARGET :: map snd evsqls) ++ [Commit])).
Proof.
  intros Hb Ha Hcommit. cbn [apply_all] in Ha.
  destruct (sql_exec wh (create_sql TARGET) (working w)) as [st0|e] eqn:Hx;
    [|discriminate].
  cbn [bind] in Ha. rewrite load_batch_run, cur_execute_run, Hx.
  destruct (for_M_staged wh records evsqls
              (mk_world (stdout w)
                        (if autocommits wh (create_sql TARGET) then st0 else committed w)
                        st0 (calls w ++ [Execute (create_sql TARGET)])) st Hb Ha)
    as [c Hloop].
  rewrite Hloop, Hcommit. simpl. now rewrite <- !app_assoc.
Qed.

(** A [try] block that ran to its end applied the whole batch and
    committed it. *)
Lemma load_batch_ok_inv records w w2 :
  load_batch wh TARGET records w = (Ok tt, w2) ->
  exists evsqls,
    batch_statements TARGET records = Ok evsqls
    /\ apply_all wh (create_sql TARGET :: map snd evsqls) (working w) = Ok (committed w2)
    /\ working w2 = committed w2.
Proof.
  rewrite load_batch_run, cur_execute_run.
  destruct (sql_exec wh (create_sql TARGET) (working w)) as [st0|e] eqn:Hx;
    [|discriminate].
  match goal with
  | |- context [for_M _ records ?w1] =>
      destruct (for_M (insert_record wh TARGET) records w1) as [[[]|e] w3] eqn:Hloop
  end; [|discriminate].
  destruct (commit wh); [|discriminate]. intro H. injection H as <-.
  apply for_M_ok_inv in Hloop. destruct Hloop as (evsqls & Hb & Ha). simpl in Ha.
  exists evsqls. cbn [apply_all]. rewrite Hx. cbn [bind]. simpl. now repeat split.
Qed.

(** In a session that holds its statements, a [try] block that raised has
    published nothing. *)
Lemma load_batch_raise records w e w2 :
  staged_session wh ->
  load_batch wh TARGET records w = (Raise e, w2) -> committed w2 = committed w.
Proof.
  intros Hs. rewrite load_batch_run.
  pose proof (keeps_execute wh (create_sql TARGET) Hs w) as K1.
  destruct (cur_execute wh (create_sql TARGET) w) as [[[]|e1] w1]; simpl in K1.
  - pose proof (keeps_for_M (insert_record wh TARGET) records
                  (fun x => keeps_insert_record wh x Hs) w1) as K2.
    destruct (for_M (insert_record wh TARGET) records w1) as [[[]|e2] w3]; simpl in K2.
    + destruct (commit wh); [discriminate|]. intro H. injection H as _ <-. simpl.
      congruence.
    + intro H. injection H as _ <-. congruence.
  - intro H. injection H as _ <-. assumption.
Qed.

(** The trace of the [try] block: the table creation, the inserts of the
    first records of the batch and, when all of them went through, the
    commit. *)
Lemma load_batch_calls records w r w2 :
  load_batch wh TARGET records w = (r, w2) ->
  exists n evsqls,
    (n <= List.length records)%nat
    /\ batch_statements TARGET (firstn n records) = Ok evsqls
    /\ ((n = List.length records
         /\ calls w2 = calls w ++ map Execute (create_sql TARGET :: map snd evsqls)
                               ++ [Commit])
        \/ ((exists e, r = Raise e)
            /\ calls w2 = calls w ++ map Execute (create_sql TARGET :: map snd evsqls))).
Proof.
  rewrite load_batch_run, cur_execute_run.
  destruct (sql_exec wh (create_sql TARGET) (working w)) as [st0|e] eqn:Hx.
  - match goal with
    | |- context [for_M _ records ?w1] =>
        destruct (for_M (insert_record wh TARGET) records w1) as [r1 w3] eqn:Hloop
    end.
    destruct (for_M_calls wh records _ r1 w3 Hloop) as (n & evsqls & Hn & Hb & Hc & Hlen).
    simpl in Hc. intro H. exists n, evsqls. split; [assumption|]. split; [assumption|].
    destruct r1 as [[]|e1].
    + left. split; [now apply Hlen|].
      destruct (commit wh); injection H as <- <-; simpl; rewrite Hc; simpl;
        now rewrite <- !app_assoc.
    + right. injection H as <- <-. split; [now exists e1|].
      rewrite Hc. simpl. now rewrite <- !app_assoc.
  - intro H. injection H as <- <-. exists 0%nat, []. simpl.
    split; [lia|]. split; [reflexivity|]. right. split; [now exists e | reflexivity].
Qed.

Lemma handler_outcome_calls r w :
  calls (snd (handler_outcome wh r w))
  = calls w ++ match r with
               | Ok _ => []
               | Raise _ => [Rollback]
               end.
Proof.
  unfold handler_outcome. destruct r as [u|e]; simpl; [now rewrite app_nil_r|].
  now destruct (rollback wh).
Qed.

(** X1: a non-empty batch of complete records is loaded in one go when the
    warehouse accepts every call of the run: [load] connects, opens the
    cursor, replaces the table, sends one insert per record in batch
    order, commits, closes cursor and connection, and the table then holds
    what these statements make of the contents from before the load. *)
Theorem load_commits_batch records evsqls w st :
  records <> [] ->
  connect wh = Ok tt -> cursor wh = Ok tt -> commit wh = Ok tt ->
  close_cursor wh = Ok tt -> close_conn wh = Ok tt ->
  batch_statements TARGET records = Ok evsqls ->
  apply_all wh (create_sql TARGET :: map snd evsqls) (committed w) = Ok st ->
  load wh records w
  = (Ok JNull,
     mk_world (stdout w ++ map fst evsqls ++ [PrintLoaded (List.length records) TARGET])
              st st
              (calls w ++ [GetConn; Cursor]
                 ++ map Execute (create_sql TARGET :: map snd evsqls)
                 ++ [Commit; CursorClose; ConnClose])).
Proof.
  intros Hne Hc Hcur Hcommit Hcc Hcn Hb Ha.
  rewrite (load_connected wh records w Hne Hc Hcur).
  rewrite (load_batch_staged records evsqls (connected w) st Hb Ha Hcommit).
  unfold handler_outcome, closes_outcome. rewrite Hcc, Hcn.
  unfold log_call. simpl. now flatten_trace.
Qed.

(** X2: in a session that holds its statements until commit and whose
    commit returns when it is reached, [load] is all or nothing on every
    batch: the table contents after it are either those from before, or
    what the table creation followed by the inserts of all records make of
    them. *)
Theorem load_all_or_nothing records w :
  staged_session wh ->
  commit wh = Ok tt ->
  committed (snd (load wh records w)) = committed w
  \/ exists evsqls,
       batch_statements TARGET records = Ok evsqls
       /\ apply_all wh (create_sql TARGET :: map snd evsqls) (committed w)
          = Ok (committed (snd (load wh records w))).
Proof.
  intros Hs _. destruct records as [|r records]; [now left|].
  destruct (connect wh) as [[]|ec] eqn:Hc;
    [|left; rewrite (load_not_connected wh _ w ec); [reflexivity|discriminate|assumption]].
  destruct (cursor wh) as [[]|ecur] eqn:Hcur;
    [|left; rewrite (load_no_cursor wh _ w ecur); [reflexivity|discriminate|assumption..]].
  rewrite (load_connected wh (r :: records) w) by (trivial; discriminate).
  destruct (load_batch wh TARGET (r :: records) (connected w)) as [[[]|e] w2] eqn:Hb.
  - right. apply load_batch_ok_inv in Hb. destruct Hb as (evsqls & Hst & Ha & _).
    exists evsqls. split; [assumption|].
    destruct (closes_outcome_world wh (fst (handler_outcome wh (Ok tt) w2))
                (snd (handler_outcome wh (Ok tt) w2))) as (Hk & _).
    simpl in Hk |- *. now rewrite Hk.
  - left. apply (load_batch_raise _ _ _ _ Hs) in Hb. simpl in Hb.
    destruct (closes_outcome_world wh (fst (handler_outcome wh (Raise e) w2))
                (snd (handler_outcome wh (Raise e) w2))) as (Hk & _).
    destruct (handler_outcome wh (Raise e) w2) as [r1 w3] eqn:Hh. simpl in Hk.
    rewrite Hk. unfold handler_outcome in Hh.
    destruct (rollback wh); injection Hh as _ <-; simpl; assumption.
Qed.


(** X4: the errors that leave [load], exactly.  [load] raises [e] if and
    only if the batch is non-empty and [e] is raised by [get_conn], or
    else by [cursor] (both outside the [try]), or else by [cur.close()],
    or else by [conn.close()], or else by the rollback of a batch that
    failed.  When it is [cursor] that raises, the connection just acquired
    is never closed. *)
Theorem load_raises_iff records w e :
  (fst (load wh records w) = Raise e
   <-> records <> []
       /\ (connect wh = Raise e
           \/ (connect wh = Ok tt
               /\ (cursor wh = Raise e
                   \/ (cursor wh = Ok tt
                       /\ (close_cursor wh = Raise e
                           \/ (close_cursor wh = Ok tt
                               /\ (close_conn wh = Raise e
                                   \/ (close_conn wh = Ok tt
                                       /\ rollback wh = Raise e
                                       /\ exists e0,
                                            fst (load_batch wh TARGET records
                                                            (connected w))
                                            = Raise e0)))))))))
  /\ (records <> [] -> connect wh = Ok tt -> cursor wh = Raise e ->
      snd (load wh records w)
      = mk_world (stdout w) (committed w) (committed w) (calls w ++ [GetConn; Cursor])).
Proof.
  split.
  - destruct records as [|r records].
    { split; [discriminate | intros [H _]; congruence]. }
    assert (r :: records <> []) as Hne by discriminate.
    destruct (connect wh) as [[]|ec] eqn:Hc.
    + destruct (cursor wh) as [[]|ecur] eqn:Hcur.
      * rewrite (load_connected wh _ w Hne Hc Hcur).
        destruct (load_batch wh TARGET (r :: records) (connected w)) as [r0 w2].
        unfold handler_outcome, closes_outcome. simpl.
        destruct (close_cursor wh) as [[]|e1].
        -- destruct (close_conn wh) as [[]|e2].
           ++ destruct r0 as [[]|e0].
              ** split; [discriminate|].
                 intros [_ [H|[_ [H|[_ [H|[_ [H|(_ & _ & e1 & H)]]]]]]]]; discriminate.
              ** destruct (rollback wh) as [[]|e3]; simpl.
                 --- split; [discriminate|].
                     intros [_ [H|[_ [H|[_ [H|[_ [H|(_ & H & _)]]]]]]]]; discriminate.
                 --- split.
                     +++ intro H. injection H as ->. split; [assumption|].
                         right. split; [reflexivity|]. right. split; [reflexivity|].
                         right. split; [reflexivity|]. right. split; [reflexivity|].
                         split; [reflexivity|]. now exists e0.
                     +++ intros [_ [H|[_ [H|[_ [H|[_ [H|(_ & H & _)]]]]]]]];
                           try discriminate. now injection H as ->.
           ++ destruct r0 as [[]|e0]; [|destruct (rollback wh)]; simpl;
                (split;
                 [intro H; injection H as ->; split; [assumption|];
                  right; split; [reflexivity|]; right; split; [reflexivity|];
                  right; split; [reflexivity|]; now left
                 |intros [_ [H|[_ [H|[_ [H|[_ [H|(H & _)]]]]]]]];
                    try discriminate; now injection H as ->]).
        -- destruct r0 as [[]|e0]; [|destruct (rollback wh)]; simpl;
             (split;
              [intro H; injection H as ->; split; [assumption|];
               right; split; [reflexivity|]; right; split; [reflexivity|]; now left
              |intros [_ [H|[_ [H|[_ [H|[H _]]]]]]];
                 try discriminate; now injection H as ->]).
      * rewrite (load_no_cursor wh _ w ecur Hne Hc Hcur). simpl. split.
        -- intro H. injection H as ->. split; [assumption|].
           right. split; [reflexivity|]. now left.
        -- intros [_ [H|[_ [H|[H _]]]]]; try discriminate. now injection H as ->.
    + rewrite (load_not_connected wh _ w ec Hne Hc). simpl. split.
      * intro H. injection H as ->. split; [assumption|]. now left.
      * intros [_ [H|[H _]]]; try discriminate. now injection H as ->.
  - intros Hne Hc Hcur. rewrite (load_no_cursor wh records w e Hne Hc Hcur).
    simpl. now flatten_trace.
Qed.

Lemma record_statement_keys r es key :
  record_statement TARGET r = Ok es -> In key RECORD_KEYS ->
  exists v, getitem r key = Ok v.
Proof.
  unfold record_statement. intros H Hin.
  repeat match type of H with
         | context [getitem r ?k] =>
             let E := fresh "E" in
             destruct (getitem r k) eqn:E; simpl in H; [|discriminate]
         end.
  simpl in Hin.
  repeat (destruct Hin as [<-|Hin]; [eauto|]). destruct Hin.
Qed.

Lemma batch_statements_each records : forall evsqls r,
  batch_statements TARGET records = Ok evsqls -> In r records ->
  exists es, record_statement TARGET r = Ok es.
Proof.
  induction records as [|r0 records IH]; intros evsqls r H Hin; [destruct Hin|].
  cbn [batch_statements] in H.
  destruct (record_statement TARGET r0) as [es0|] eqn:E0; [|discriminate].
  cbn [bind] in H.
  destruct (batch_statements TARGET records) as [rest|] eqn:Er; [|discriminate].
  destruct Hin as [<-|Hin]; [now exists es0 | now apply (IH rest)].
Qed.

Lemma no_commit_in_executes sqls : ~ In Commit (map Execute sqls).
Proof. induction sqls as [|sql sqls IH]; simpl; [tauto|]. intros [H|H]; [discriminate|auto]. Qed.

Lemma no_commit_in_closing : ~ In Commit (closing_calls wh).
Proof.
  unfold closing_calls. destruct (close_cursor wh); simpl;
    intros H; repeat (destruct H as [H|H]; [discriminate|]); exact H.
Qed.

(** X5: one record that lacks one of the seven keys voids the whole batch,
    wherever it stands and whatever the warehouse does: the loop body
    raises on it before it prints or executes anything, [load] never
    calls commit in that run, and in a session that holds its statements
    until commit the table contents after [load] are those from before. *)
Theorem load_incomplete_record records r key e0 w :
  In r records ->
  In key RECORD_KEYS ->
  getitem r key = Raise e0 ->
  (exists e, insert_record wh TARGET r w = (Raise e, w))
  /\ (exists trace, calls (snd (load wh records w)) = calls w ++ trace
                    /\ ~ In Commit trace)
  /\ (staged_session wh -> committed (snd (load wh records w)) = committed w).
Proof.
  intros Hin Hkey Hmiss.
  assert (forall es, record_statement TARGET r <> Ok es) as Hno.
  { intros es Hes. destruct (record_statement_keys r es key Hes Hkey) as [v Hv].
    congruence. }
  assert (records <> []) as Hne by (intros ->; destruct Hin).
  split; [|split].
  - rewrite insert_record_statement.
    destruct (record_statement TARGET r) as [es|e] eqn:E; [now destruct (Hno es)|].
    now exists e.
  - destruct (connect wh) as [[]|ec] eqn:Hc;
      [|rewrite (load_not_connected wh _ w ec Hne Hc); exists [GetConn]; split;
        [reflexivity | intros [H|[]]; discriminate]].
    destruct (cursor wh) as [[]|ecur] eqn:Hcur;
      [|rewrite (load_no_cursor wh _ w ecur Hne Hc Hcur); exists [GetConn; Cursor];
        split; [simpl; now flatten_trace | intros [H|[H|[]]]; discriminate]].
    rewrite (load_connected wh records w Hne Hc Hcur).
    destruct (load_batch wh TARGET records (connected w)) as [r0 w2] eqn:Hb.
    destruct (load_batch_calls records (connected w) r0 w2 Hb)
      as (n & evsqls & Hn & Hst & [[Hlen _]|[[e ->] Hcalls]]).
    + subst n. rewrite firstn_all in Hst.
      destruct (batch_statements_each _ evsqls r Hst Hin) as [es Hes].
      now destruct (Hno es).
    + pose proof (handler_outcome_calls (Raise e) w2) as Hh.
      destruct (handler_outcome wh (Raise e) w2) as [r1 w3]. simpl in Hh.
      destruct (closes_outcome_world wh r1 w3) as (_ & _ & _ & ->).
      rewrite Hh, Hcalls. simpl.
      exists ([GetConn; Cursor] ++ map Execute (create_sql TARGET :: map snd evsqls)
                ++ Rollback :: closing_calls wh).
      split; [now flatten_trace|].
      intro H. simpl in H.
      destruct H as [H|[H|[H|H]]]; try discriminate.
      apply in_app_or in H. destruct H as [H|[H|H]]; try discriminate.
      * now apply (no_commit_in_executes (map snd evsqls)).
      * now apply no_commit_in_closing.
  - intro Hs.
    destruct (connect wh) as [[]|ec] eqn:Hc;
      [|now rewrite (load_not_connected wh _ w ec Hne Hc)].
    destruct (cursor wh) as [[]|ecur] eqn:Hcur;
      [|now rewrite (load_no_cursor wh _ w ecur Hne Hc Hcur)].
    rewrite (load_connected wh records w Hne Hc Hcur).
    destruct (load_batch wh TARGET records (connected w)) as [[[]|e] w2] eqn:Hb.
    + apply load_batch_ok_inv in Hb. destruct Hb as (evsqls & Hst & _).
      destruct (batch_statements_each _ evsqls r Hst Hin) as [es Hes].
      now destruct (Hno es).
    + apply (load_batch_raise _ _ _ _ Hs) in Hb. simpl in Hb.
      destruct (closes_outcome_world wh (fst (handler_outcome wh (Raise e) w2))
                  (snd (handler_outcome wh (Raise e) w2))) as (Hk & _).
      destruct (handler_outcome wh (Raise e) w2) as [r1 w3] eqn:Hh. simpl in Hk.
      rewrite Hk. unfold handler_outcome in Hh.
      destruct (rollback wh); injection Hh as _ <-; simpl; assumption.
Qed.

End LoadProtocol.

Lemma load_commits_batch_witness :
  load (journal "never") [jan10; jan11] (fresh ["old"])
  = (Ok JNull,
     mk_world ([] ++ map fst batch2_statements ++ [PrintLoaded 2 TARGET])
              batch2_contents batch2_contents
              ([] ++ [GetConn; Cursor]
                  ++ map Execute (create_sql TARGET :: map snd batch2_statements)
                  ++ [Commit; CursorClose; ConnClose])).
Proof.
  apply (load_commits_batch (journal "never") [jan10; jan11] batch2_statements
           (fresh ["old"]) batch2_contents); try reflexivity.
  discriminate.
Defined.

Lemma load_all_or_nothing_witness :
  committed (snd (load rejecting_jan11 batch3 (fresh ["old"]))) = ["old"]
  \/ exists evsqls,
       batch_statements TARGET batch3 = Ok evsqls
       /\ apply_all rejecting_jan11 (create_sql TARGET :: map snd evsqls) ["old"]
          = Ok (committed (snd (load rejecting_jan11 batch3 (fresh ["old"])))).
Proof.
  apply (load_all_or_nothing rejecting_jan11 batch3 (fresh ["old"])).
  - intro sql. reflexivity.
  - reflexivity.
Defined.


Lemma load_raises_iff_witness :
  fst (load no_cursor batch3 (fresh ["old"])) = Raise DatabaseError
  /\ snd (load no_cursor batch3 (fresh ["old"]))
     = mk_world [] ["old"] ["old"] ([] ++ [GetConn; Cursor]).
Proof.
  destruct (load_raises_iff no_cursor batch3 (fresh ["old"]) DatabaseError)
    as [[_ Hraise] Hworld].
  split.
  - apply Hraise. split; [discriminate|]. right. split; [reflexivity|]. now left.
  - apply Hworld; [discriminate | reflexivity | reflexivity].
Defined.

Lemma load_incomplete_record_witness :
  (exists e, insert_record (journal "never") TARGET jan11_no_volume (fresh ["old"])
             = (Raise e, fresh ["old"]))
  /\ (exists trace,
        calls (snd (load (journal "never") [jan10; jan11_no_volume; jan12]
                         (fresh ["old"])))
        = [] ++ trace
        /\ ~ In Commit trace)
  /\ committed (snd (load (journal "never") [jan10; jan11_no_volume; jan12]
                          (fresh ["old"])))
     = ["old"].
Proof.
  destruct (load_incomplete_record (journal "never") [jan10; jan11_no_volume; jan12]
              jan11_no_volume "volume" KeyError (fresh ["old"]))
    as (Hbody & Htrace & Hcontents).
  - simpl. tauto.
  - simpl. tauto.
  - reflexivity.
  - split; [exact Hbody|]. split; [exact Htrace|].
    apply Hcontents. intro sql. reflexivity.
Defined.

(** ** What [return_last_90d_price] returns, exactly *)

Lemma strptime_midnight s t : strptime s = Ok t -> time_of_day t = 0.
Proof.
  unfold strptime.
  destruct (re_match s) as [[[[y m] d] rest]|]; [destruct rest|]; try discriminate.
  destruct ((1 <=? y) && (d <=? days_in_month y m)); [|discriminate].
  intro H. injection H as <-. reflexivity.
Qed.

Section WindowExact.

Variables (data : json) (ninety_days_ago : datetime) (symbol : string).

(** A bar dated before the cutoff is passed over without being read. *)
Lemma window_step_old results d t :
  strptime d = Ok t -> ge t ninety_days_ago = false ->
  window_step data ninety_days_ago symbol results (JStr d) = Ok results.
Proof.
  intros Hp Hg. unfold window_step. rewrite Hp. cbn [bind]. now rewrite Hg.
Qed.

Lemma window_step_inv results d out :
  window_step data ninety_days_ago symbol results (JStr d) = Ok out ->
  (exists t, strptime d = Ok t)
  /\ (qualifies ninety_days_ago d = true -> complete data symbol d).
Proof.
  unfold window_step, qualifies.
  destruct (strptime d) as [t|e]; cbn [bind]; [|discriminate].
  intro H. split; [now exists t|]. intro Hq. rewrite Hq in H.
  destruct (bar_field data d "1. open") as [o|] eqn:Ho; cbn [bind] in H; [|discriminate].
  destruct (bar_field data d "2. high") as [h|] eqn:Hh; cbn [bind] in H; [|discriminate].
  destruct (bar_field data d "3. low") as [l|] eqn:Hl; cbn [bind] in H; [|discriminate].
  destruct (bar_field data d "4. close") as [c|] eqn:Hc; cbn [bind] in H; [|discriminate].
  destruct (bar_field data d "5. volume") as [v|] eqn:Hv; cbn [bind] in H; [|discriminate].
  exists (price_data d o h l c v symbol), o, h, l, c, v. now repeat split.
Qed.

(** The loop needs complete bars only where the date qualifies. *)
Lemma window_loop_weak ks : forall results,
  (forall d, In d ks -> exists t, strptime d = Ok t) ->
  (forall d, In d ks -> qualifies ninety_days_ago d = true -> complete data symbol d) ->
  for_each (window_step data ninety_days_ago symbol) (map JStr ks) results
  = Ok (results ++ map (record_of data symbol) (filter (qualifies ninety_days_ago) ks)).
Proof.
  induction ks as [|d ks IH]; intros results Hp Hc; cbn [map for_each filter].
  - now rewrite app_nil_r.
  - destruct (Hp d (or_introl eq_refl)) as [t Ht].
    assert (qualifies ninety_days_ago d = ge t ninety_days_ago) as Hq
      by (unfold qualifies; now rewrite Ht).
    destruct (ge t ninety_days_ago) eqn:Hg.
    + rewrite (window_step_parsed data ninety_days_ago symbol results d t Ht
                 (Hc d (or_introl eq_refl) Hq)).
      rewrite Hq. cbn [bind].
      rewrite IH; [| intros; apply Hp; now right | intros; apply Hc; [now right|assumption]].
      now rewrite <- app_assoc.
    + rewrite (window_step_old results d t Ht Hg). rewrite Hq. cbn [bind].
      apply IH; [intros; apply Hp; now right | intros; apply Hc; [now right|assumption]].
Qed.

Lemma window_loop_inv ks : forall results out,
  for_each (window_step data ninety_days_ago symbol) (map JStr ks) results = Ok out ->
  forall d, In d ks ->
    (exists t, strptime d = Ok t)
    /\ (qualifies ninety_days_ago d = true -> complete data symbol d).
Proof.
  induction ks as [|d0 ks IH]; intros results out H d Hin; [destruct Hin|].
  cbn [map for_each] in H.
  destruct (window_step data ninety_days_ago symbol results (JStr d0)) as [r|] eqn:E;
    [|discriminate].
  cbn [bind] in H. destruct Hin as [<-|Hin].
  - now apply (window_step_inv results d0 r).
  - now apply (IH r out).
Qed.

(** Whatever the items are, the loop only ever appends records built by
    lines 66-74. *)
Lemma window_step_shape results item out :
  window_step data ninety_days_ago symbol results item = Ok out ->
  Forall is_price_data results -> Forall is_price_data out.
Proof.
  unfold window_step. destruct item as [| | |d| |]; try discriminate.
  destruct (strptime d) as [t|]; cbn [bind]; [|discriminate].
  destruct (ge t ninety_days_ago); [|intro H; injection H as <-; trivial].
  destruct (bar_field data d "1. open") as [o|]; cbn [bind]; [|discriminate].
  destruct (bar_field data d "2. high") as [h|]; cbn [bind]; [|discriminate].
  destruct (bar_field data d "3. low") as [l|]; cbn [bind]; [|discriminate].
  destruct (bar_field data d "4. close") as [c|]; cbn [bind]; [|discriminate].
  destruct (bar_field data d "5. volume") as [v|]; cbn [bind]; [|discriminate].
  intro H. injection H as <-. intro Hr. apply Forall_app. split; [assumption|].
  constructor; [|constructor]. now exists d, o, h, l, c, v, symbol.
Qed.

Lemma window_loop_shape items : forall results out,
  for_each (window_step data ninety_days_ago symbol) items results = Ok out ->
  Forall is_price_data results -> Forall is_price_data out.
Proof.
  induction items as [|item items IH]; intros results out H Hr; cbn [for_each] in H.
  - now injection H as <-.
  - destruct (window_step data ninety_days_ago symbol results item) as [r|] eqn:E;
      [|discriminate].
    cbn [bind] in H. apply (IH r out H). now apply (window_step_shape results item).
Qed.

End WindowExact.

Lemma Forall2_map_right {A B} (P : A -> B -> Prop) (f : A -> B) (l : list A) :
  (forall a, In a l -> P a (f a)) -> Forall2 P l (map f l).
Proof.
  induction l as [|a l IH]; intro H; simpl; constructor.
  - apply H. now left.
  - apply IH. intros; apply H; now right.
Qed.

Lemma filter_last_90d_weak data S now symbol :
  getitem data SERIES = Ok (JObj S) ->
  90 < toordinal now <= MAXORDINAL ->
  (forall d, In d (keys S) -> exists t, strptime d = Ok t) ->
  (forall d, In d (keys S) -> qualifies (cutoff now) d = true -> complete data symbol d) ->
  filter_last_90d data now symbol
  = Ok (map (record_of data symbol) (filter (qualifies (cutoff now)) (keys S))).
Proof.
  intros Hs Hnow Hp Hc. unfold filter_last_90d, cutoff in *.
  rewrite (sub_days_valid now Hnow). cbn [bind].
  rewrite (get_default_series data S Hs). cbn [bind iter].
  now rewrite window_loop_weak.
Qed.

Lemma record_of_date data symbol d d' :
  record_of data symbol d = record_of data symbol d' -> d = d'.
Proof. unfold record_of, price_data. intro H. now injection H. Qed.

(** X6: on a series whose keys all parse and whose bars are complete
    wherever the date qualifies, the task returns, in the order of the
    series, exactly one record per key whose midnight is not before the
    clock reading minus ninety days, each the record of that key's bar. *)
Theorem window_filter_exact rt symbol data S :
  fetch_daily rt symbol = Ok data ->
  getitem data SERIES = Ok (JObj S) ->
  90 < toordinal (today rt) <= MAXORDINAL ->
  (forall d, In d (keys S) -> exists t, strptime d = Ok t) ->
  (forall d, In d (keys S) -> qualifies (cutoff (today rt)) d = true ->
             complete data symbol d) ->
  exists out,
    return_last_90d_price rt symbol = Ok out
    /\ Forall2 (bar_record data symbol)
               (filter (qualifies (cutoff (today rt))) (keys S)) out.
Proof.
  intros Hf Hs Hnow Hp Hc. eexists. split.
  - unfold return_last_90d_price. rewrite Hf. cbn [bind].
    apply (filter_last_90d_weak data S (today rt) symbol Hs Hnow Hp Hc).
  - apply Forall2_map_right. intros d Hin. apply filter_In in Hin.
    destruct Hin as [Hin Hq]. apply record_of_complete. now apply Hc.
Qed.

Lemma window_filter_exact_witness :
  exists out,
    return_last_90d_price (serving (ok_200 series_old_broken) feb1_1am) "MSFT" = Ok out
    /\ Forall2 (bar_record (daily series_old_broken) "MSFT")
               (filter (qualifies (cutoff feb1_1am)) (keys series_old_broken)) out.
Proof.
  apply (window_filter_exact (serving (ok_200 series_old_broken) feb1_1am) "MSFT"
           (daily series_old_broken) series_old_broken).
  - reflexivity.
  - reflexivity.
  - unfold MAXORDINAL; simpl; lia.
  - each_key; eexists; vm_compute; reflexivity.
  - each_key; intro Hq; vm_compute in Hq; try discriminate Hq.
    eexists; do 5 eexists; repeat split.
Defined.

(** X7: with a decoded series and the clock in range, the task returns
    normally exactly when every date key parses and every bar whose date
    qualifies is complete; a broken bar that is too old to qualify is never
    read and does no harm. *)
Theorem window_filter_returns_iff rt symbol data S :
  fetch_daily rt symbol = Ok data ->
  getitem data SERIES = Ok (JObj S) ->
  90 < toordinal (today rt) <= MAXORDINAL ->
  (exists out, return_last_90d_price rt symbol = Ok out)
  <-> (forall d, In d (keys S) ->
         (exists t, strptime d = Ok t)
         /\ (qualifies (cutoff (today rt)) d = true -> complete data symbol d)).
Proof.
  intros Hf Hs Hnow. split.
  - intros [out H]. unfold return_last_90d_price in H. rewrite Hf in H.
    cbn [bind] in H. unfold filter_last_90d in H.
    rewrite (sub_days_valid _ Hnow) in H. cbn [bind] in H.
    rewrite (get_default_series data S Hs) in H. cbn [bind iter] in H.
    exact (window_loop_inv data _ symbol (keys S) [] out H).
  - intro H. eexists. unfold return_last_90d_price. rewrite Hf. cbn [bind].
    apply (filter_last_90d_weak data S (today rt) symbol Hs Hnow).
    + intros d Hin. now destruct (H d Hin).
    + intros d Hin. now destruct (H d Hin).
Qed.

Lemma window_filter_returns_iff_witness :
  (exists out,
     return_last_90d_price (serving (ok_200 series_old_broken) feb1_1am) "MSFT" = Ok out)
  <-> (forall d, In d (keys series_old_broken) ->
         (exists t, strptime d = Ok t)
         /\ (qualifies (cutoff feb1_1am) d = true ->
             complete (daily series_old_broken) "MSFT" d)).
Proof.
  apply (window_filter_returns_iff (serving (ok_200 series_old_broken) feb1_1am) "MSFT"
           (daily series_old_broken) series_old_broken).
  - reflexivity.
  - reflexivity.
  - unfold MAXORDINAL; simpl; lia.
Defined.

(** X8: the bar dated exactly ninety days before the clock's day is
    returned only when the clock reads midnight: line 64 compares midnight
    of the bar's date with a cutoff that keeps the clock's time of day. *)
Theorem window_boundary_day rt symbol data S d t :
  fetch_daily rt symbol = Ok data ->
  getitem data SERIES = Ok (JObj S) ->
  90 < toordinal (today rt) <= MAXORDINAL ->
  (forall d', In d' (keys S) -> exists t', strptime d' = Ok t') ->
  (forall d', In d' (keys S) -> qualifies (cutoff (today rt)) d' = true ->
              complete data symbol d') ->
  In d (keys S) ->
  strptime d = Ok t ->
  toordinal t = toordinal (today rt) - 90 ->
  exists out,
    return_last_90d_price rt symbol = Ok out
    /\ ((exists rec, In rec out /\ bar_record data symbol d rec)
        <-> time_of_day (today rt) <= 0).
Proof.
  intros Hf Hs Hnow Hp Hc Hin Ht Hord.
  assert (qualifies (cutoff (today rt)) d = (time_of_day (today rt) <=? 0)) as Hq.
  { unfold qualifies. rewrite Ht. pose proof (strptime_midnight d t Ht) as Hm.
    destruct t as [o us]. simpl in Hord, Hm. subst o us. apply ge_boundary_day. }
  eexists. split.
  - unfold return_last_90d_price. rewrite Hf. cbn [bind].
    apply (filter_last_90d_weak data S (today rt) symbol Hs Hnow Hp Hc).
  - split.
    + intros (rec & Hrec & Hbar). apply bar_record_unique in Hbar. subst rec.
      apply in_map_iff in Hrec. destruct Hrec as (d' & Heq & Hd').
      apply record_of_date in Heq. subst d'. apply filter_In in Hd'.
      destruct Hd' as [_ Hd']. rewrite Hq in Hd'. now apply Z.leb_le.
    + intro Hle. apply Z.leb_le in Hle. rewrite <- Hq in Hle.
      exists (record_of data symbol d). split.
      * apply in_map. apply filter_In. now split.
      * apply record_of_complete. now apply Hc.
Qed.

Lemma window_boundary_day_witness :
  (exists out,
     return_last_90d_price (serving (ok_200 series_boundary) feb1_1am) "MSFT" = Ok out
     /\ ((exists rec, In rec out
                      /\ bar_record (daily series_boundary) "MSFT" "2023-11-03" rec)
         <-> time_of_day feb1_1am <= 0))
  /\ ~ time_of_day feb1_1am <= 0.
Proof.
  split.
  - apply (window_boundary_day (serving (ok_200 series_boundary) feb1_1am) "MSFT"
             (daily series_boundary) series_boundary "2023-11-03"
             (mk_datetime 738827 0)).
    + reflexivity.
    + reflexivity.
    + unfold MAXORDINAL; simpl; lia.
    + each_key; eexists; vm_compute; reflexivity.
    + each_key; intros _; eexists; do 5 eexists; repeat split.
    + simpl. tauto.
    + vm_compute. reflexivity.
    + reflexivity.
  - simpl. lia.
Defined.

(** X9: when the decoded body is an object without the series, as the
    API's refusals are, the task returns the empty list and raises
    nothing. *)
Theorem window_filter_no_series rt symbol top :
  fetch_daily rt symbol = Ok (JObj top) ->
  dict_get SERIES top = None ->
  90 < toordinal (today rt) <= MAXORDINAL ->
  return_last_90d_price rt symbol = Ok [].
Proof.
  intros Hf Hnone Hnow. unfold return_last_90d_price. rewrite Hf. cbn [bind].
  unfold filter_last_90d. rewrite (sub_days_valid _ Hnow). cbn [bind].
  unfold get_default. now rewrite Hnone.
Qed.

Lemma window_filter_no_series_witness :
  return_last_90d_price (serving (mk_response 200 (Some note_body)) feb1_1am) "MSFT"
  = Ok [].
Proof.
  apply (window_filter_no_series (serving (mk_response 200 (Some note_body)) feb1_1am)
           "MSFT" [("Note", JStr "Thank you for using Alpha Vantage!")]).
  - reflexivity.
  - reflexivity.
  - unfold MAXORDINAL; simpl; lia.
Defined.

(** X10: bodies of the wrong shape are fatal, each with the error of the
    operation that meets them: a body that is no object has no [get]
    ([AttributeError]); a series that is [null], a boolean or a number
    cannot be iterated ([TypeError]); a series that is a non-empty string
    is iterated by character and its first character is no date
    ([ValueError]). *)
Theorem window_filter_wrong_shape rt symbol data :
  fetch_daily rt symbol = Ok data ->
  90 < toordinal (today rt) <= MAXORDINAL ->
  ((forall m, data <> JObj m) -> return_last_90d_price rt symbol = Raise AttributeError)
  /\ (forall series,
        getitem data SERIES = Ok series ->
        series = JNull \/ (exists b, series = JBool b) \/ (exists z, series = JInt z) ->
        return_last_90d_price rt symbol = Raise TypeError)
  /\ (forall c s,
        getitem data SERIES = Ok (JStr (String c s)) ->
        return_last_90d_price rt symbol = Raise ValueError).
Proof.
  intros Hf Hnow. unfold return_last_90d_price. rewrite Hf. cbn [bind].
  unfold filter_last_90d. rewrite (sub_days_valid _ Hnow). cbn [bind].
  split; [|split].
  - intro Hno. destruct data; try reflexivity. now destruct (Hno m).
  - intros series Hs Hshape. destruct data; try discriminate. simpl in Hs.
    unfold get_default. destruct (dict_get SERIES m) as [v|]; [|discriminate].
    injection Hs as ->. cbn [bind].
    destruct Hshape as [->|[[b ->]|[z ->]]]; reflexivity.
  - intros c s Hs. destruct data; try discriminate. simpl in Hs.
    unfold get_default. destruct (dict_get SERIES m) as [v|]; [|discriminate].
    injection Hs as ->. reflexivity.
Qed.

Lemma window_filter_wrong_shape_witness :
  return_last_90d_price (serving (mk_response 200 (Some (JArr []))) feb1_1am) "MSFT"
  = Raise AttributeError
  /\ return_last_90d_price
       (serving (mk_response 200 (Some (JObj [(SERIES, JNull)]))) feb1_1am) "MSFT"
     = Raise TypeError
  /\ return_last_90d_price
       (serving (mk_response 200 (Some (JObj [(SERIES, JStr "n/a")]))) feb1_1am) "MSFT"
     = Raise ValueError.
Proof.
  split; [|split].
  - apply (proj1 (window_filter_wrong_shape
                    (serving (mk_response 200 (Some (JArr []))) feb1_1am) "MSFT"
                    (JArr []) eq_refl ltac:(unfold MAXORDINAL; simpl; lia))).
    discriminate.
  - apply (proj1 (proj2 (window_filter_wrong_shape
                    (serving (mk_response 200 (Some (JObj [(SERIES, JNull)]))) feb1_1am)
                    "MSFT" (JObj [(SERIES, JNull)]) eq_refl
                    ltac:(unfold MAXORDINAL; simpl; lia))) JNull eq_refl).
    now left.
  - apply (proj2 (proj2 (window_filter_wrong_shape
                    (serving (mk_response 200 (Some (JObj [(SERIES, JStr "n/a")])))
                             feb1_1am)
                    "MSFT" (JObj [(SERIES, JStr "n/a")]) eq_refl
                    ltac:(unfold MAXORDINAL; simpl; lia))) "n"%char "/a" eq_refl).
Defined.

Lemma batch_statements_price_data out :
  Forall is_price_data out -> exists evsqls, batch_statements TARGET out = Ok evsqls.
Proof.
  induction 1 as [|rec out Hrec _ IH]; [now exists []|].
  destruct Hrec as (d & o & h & l & c & v & symbol & ->).
  destruct IH as [rest Hrest]. eexists. cbn [batch_statements].
  rewrite Hrest. reflexivity.
Qed.

(** X14: whatever the task returns can be read by [load]: every record of
    a returned list holds the seven keys [load] reads, so the field reads
    of lines 123-129 cannot fail on the output of the filter stage. *)
Theorem window_filter_output_loadable rt symbol out :
  return_last_90d_price rt symbol = Ok out ->
  (forall rec key, In rec out -> In key RECORD_KEYS -> exists v, getitem rec key = Ok v)
  /\ exists evsqls, batch_statements TARGET out = Ok evsqls.
Proof.
  intro H. assert (Forall is_price_data out) as Hshape.
  { unfold return_last_90d_price in H.
    destruct (fetch_daily rt symbol) as [data|]; [|discriminate]. cbn [bind] in H.
    unfold filter_last_90d in H.
    destruct (sub_days (today rt) 90) as [ninety|]; [|discriminate]. cbn [bind] in H.
    destruct (get_default data SERIES (JObj [])) as [series|]; [|discriminate].
    cbn [bind] in H.
    destruct (iter series) as [items|]; [|discriminate]. cbn [bind] in H.
    now apply (window_loop_shape data ninety symbol items [] out H). }
  split.
  - intros rec key Hin Hkey. rewrite Forall_forall in Hshape.
    destruct (Hshape rec Hin) as (d & o & h & l & c & v & sym & ->).
    simpl in Hkey.
    repeat (destruct Hkey as [<-|Hkey]; [eexists; reflexivity|]). destruct Hkey.
  - now apply batch_statements_price_data.
Qed.

Lemma window_filter_output_loadable_witness :
  exists out,
    return_last_90d_price (serving (ok_200 series_ok) feb1_1am) "MSFT" = Ok out
    /\ (forall rec key, In rec out -> In key RECORD_KEYS ->
                        exists v, getitem rec key = Ok v)
    /\ exists evsqls, batch_statements TARGET out = Ok evsqls.
Proof.
  eexists. split; [vm_compute; reflexivity|].
  apply (window_filter_output_loadable (serving (ok_200 series_ok) feb1_1am) "MSFT").
  vm_compute. reflexivity.
Defined.

(** ** The DAG run as a whole *)

Lemma load_connected_returns {store} (wh : warehouse store) records (w : world store) :
  connect wh = Ok tt -> cursor wh = Ok tt -> rollback wh = Ok tt ->
  close_cursor wh = Ok tt -> close_conn wh = Ok tt ->
  fst (load wh records w) = Ok JNull.
Proof.
  intros Hc Hcur Hr Hcc Hcn. destruct records as [|r records]; [reflexivity|].
  rewrite (load_connected wh (r :: records) w) by (trivial; discriminate).
  destruct (load_batch wh TARGET (r :: records) (connected w)) as [[[]|e] w2];
    unfold handler_outcome, closes_outcome; now rewrite ?Hr, Hcc, Hcn.
Qed.

Lemma fetch_daily_with_template rt url_template format symbol :
  fetch_daily (with_template rt url_template format) symbol = fetch_daily rt symbol.
Proof. reflexivity. Qed.

(** X11: when the filter stage returns no record, the run goes through
    with every downstream task successful and the warehouse is never
    contacted: no connection, no statement, and in particular no
    replacement of the table. *)
Theorem dag_empty_window {store} rt (wh : warehouse store) (w : world store) :
  return_last_90d_price rt "MSFT" = Ok [] ->
  run_dag rt wh w
  = (mk_dag_run (state_of (extract rt)) success success success,
     mk_world (stdout w ++ [PrintProcessed []; PrintNoRecords])
              (committed w) (working w) (calls w)).
Proof.
  intro H. unfold run_dag. rewrite H. rewrite transform_run.
  unfold load, bindM, print, ret. simpl. now flatten_trace.
Qed.

Lemma dag_empty_window_witness :
  run_dag (serving (ok_200 series_old) feb1_1am) (journal "never") (fresh ["old"])
  = (mk_dag_run (state_of (extract (serving (ok_200 series_old) feb1_1am)))
                success success success,
     mk_world ([] ++ [PrintProcessed []; PrintNoRecords]) ["old"] ["old"] []).
Proof.
  apply (dag_empty_window (serving (ok_200 series_old) feb1_1am) (journal "never")
           (fresh ["old"])).
  vm_compute. reflexivity.
Defined.

(** X12: the scheduler never sees the transform or the load task fail
    when the connection, its cursor, the rollback and the two closes
    return: their states then depend on the filter stage alone, so a batch
    the warehouse rejects, or whose commit raises, still ends in a
    successful load task. *)
Theorem dag_hides_warehouse_failure {store} rt (wh : warehouse store) (w : world store) :
  connect wh = Ok tt -> cursor wh = Ok tt -> rollback wh = Ok tt ->
  close_cursor wh = Ok tt -> close_conn wh = Ok tt ->
  transform_state (fst (run_dag rt wh w))
  = match return_last_90d_price rt "MSFT" with
    | Ok _ => success
    | Raise _ => upstream_failed
    end
  /\ load_state (fst (run_dag rt wh w))
     = match return_last_90d_price rt "MSFT" with
       | Ok _ => success
       | Raise _ => upstream_failed
       end.
Proof.
  intros Hc Hcur Hr Hcc Hcn. unfold run_dag.
  destruct (return_last_90d_price rt "MSFT") as [last|e]; [|now split].
  rewrite transform_run.
  match goal with
  | |- context [load wh last ?w1] =>
      pose proof (load_connected_returns wh last w1 Hc Hcur Hr Hcc Hcn) as Hl;
      destruct (load wh last w1) as [r w2]
  end.
  simpl in Hl. subst r. now split.
Qed.

Lemma dag_hides_warehouse_failure_witness :
  load_state (fst (run_dag (serving (ok_200 series_ok) feb1_1am)
                           (journal "2024-01-10") (fresh ["old"])))
  = success
  /\ In Rollback (calls (snd (run_dag (serving (ok_200 series_ok) feb1_1am)
                                      (journal "2024-01-10") (fresh ["old"])))).
Proof.
  split; [|vm_compute; tauto].
  rewrite (proj2 (dag_hides_warehouse_failure (serving (ok_200 series_ok) feb1_1am)
                    (journal "2024-01-10") (fresh ["old"])
                    eq_refl eq_refl eq_refl eq_refl eq_refl)).
  vm_compute. reflexivity.
Defined.

(** X13: nothing downstream depends on what [extract] alone reads: with
    another [url] Variable and another behaviour of [str.format] the
    filter, transform and load tasks end in the same states and leave the
    same output and the same warehouse. *)
Theorem dag_ignores_extract {store} rt url_template format
    (wh : warehouse store) (w : world store) :
  let rt' := with_template rt url_template format in
  snd (run_dag rt' wh w) = snd (run_dag rt wh w)
  /\ filter_state (fst (run_dag rt' wh w)) = filter_state (fst (run_dag rt wh w))
  /\ transform_state (fst (run_dag rt' wh w)) = transform_state (fst (run_dag rt wh w))
  /\ load_state (fst (run_dag rt' wh w)) = load_state (fst (run_dag rt wh w)).
Proof.
  intro rt'. unfold run_dag.
  assert (return_last_90d_price rt' "MSFT" = return_last_90d_price rt "MSFT") as ->
    by reflexivity.
  destruct (return_last_90d_price rt "MSFT") as [last|e]; [|now repeat split].
  destruct (transform last w) as [[t|e] w1]; [|now repeat split].
  destruct (load wh t w1) as [r w2]. now repeat split.
Qed.

(** X15: end to end, when the filter stage returns a non-empty list and
    the warehouse accepts every call of the run (the connection, the
    cursor, the table creation, the insert of each returned record, the
    commit and the two closes), the run commits exactly these statements,
    in the order the filter returned the records, and every downstream
    task succeeds. *)
Theorem dag_loads_window {store} rt (wh : warehouse store) (w : world store)
    out evsqls st :
  return_last_90d_price rt "MSFT" = Ok out ->
  out <> [] ->
  connect wh = Ok tt -> cursor wh = Ok tt -> commit wh = Ok tt ->
  close_cursor wh = Ok tt -> close_conn wh = Ok tt ->
  batch_statements TARGET out = Ok evsqls ->
  apply_all wh (create_sql TARGET :: map snd evsqls) (committed w) = Ok st ->
  run_dag rt wh w
  = (mk_dag_run (state_of (extract rt)) success success success,
     mk_world (stdout w ++ PrintProcessed out :: map fst evsqls
                 ++ [PrintLoaded (List.length out) TARGET])
              st st
              (calls w ++ [GetConn; Cursor]
                 ++ map Execute (create_sql TARGET :: map snd evsqls)
                 ++ [Commit; CursorClose; ConnClose])).
Proof.
  intros Hout Hne Hc Hcur Hcommit Hcc Hcn Hb Ha.
  unfold run_dag. rewrite Hout, transform_run.
  match goal with
  | |- context [load wh out ?w1] =>
      rewrite (load_connected wh out w1 Hne Hc Hcur);
      rewrite (load_batch_staged wh out evsqls (connected w1) st Hb Ha Hcommit)
  end.
  unfold handler_outcome, closes_outcome. rewrite Hcc, Hcn.
  unfold log_call. simpl. now flatten_trace.
Qed.

Lemma dag_loads_window_witness :
  exists out evsqls,
    return_last_90d_price (serving (ok_200 series_ok) feb1_1am) "MSFT" = Ok out
    /\ batch_statements TARGET out = Ok evsqls
    /\ committed (snd (run_dag (serving (ok_200 series_ok) feb1_1am) (journal "never")
                               (fresh ["old"])))
       = "old" :: create_sql TARGET :: map snd evsqls.
Proof.
  eexists. eexists. split; [vm_compute; reflexivity|]. split; [vm_compute; reflexivity|].
  erewrite (dag_loads_window (serving (ok_200 series_ok) feb1_1am) (journal "never")
              (fresh ["old"])).
  - reflexivity.
  - vm_compute. reflexivity.
  - discriminate.
  - reflexivity.
  - reflexivity.
  - reflexivity.
  - reflexivity.
  - reflexivity.
  - vm_compute. reflexivity.
  - vm_compute. reflexivity.
Defined.
